(** * Test utilities of torchrec: planner constraints, synthetic models and
    the reference metric harness.

    Shallow embedding of
    - [torchrec/distributed/model_tracker/tests/utils.py]  (module [ModelTracker])
    - [torchrec/metrics/test_utils/__init__.py]            (module [MetricsTestUtils])

    Python dictionaries with string keys are [gmap string _]; Python [int]s
    are [Z]; Python exceptions are the left summand of [Result]. *)

From Stdlib Require Import ZArith Floats.
From stdpp Require Import gmap strings list fin_maps.

Local Open Scope Z_scope.

(** ** Exceptions *)

(** The exceptions the modelled code can raise.  [ExternalError] stands for
    whatever a framework module (embedding collection, metric object) raises. *)
Inductive PyError : Type :=
  | IndexError
  | KeyError (key : string)
  | AssertionError
  | ExternalError (msg : string).

Definition Result (A : Type) : Type := PyError + A.

Definition ok {A} (a : A) : Result A := inr a.
Definition raise {A} (e : PyError) : Result A := inl e.

Definition bind {A B} (r : Result A) (k : A → Result B) : Result B :=
  match r with
  | inl e => inl e
  | inr a => k a
  end.

Notation "'let*' x ':=' r 'in' k" := (bind r (λ x, k))
  (at level 10, x name, r at level 100, k at level 200, only parsing).
Notation "'let*' ' p ':=' r 'in' k" := (bind r (λ p, k))
  (at level 10, p strict pattern, r at level 100, k at level 200, only parsing).

(** [d[k]] on a dictionary: [KeyError] when the key is absent. *)
Definition getitem {A} (d : gmap string A) (k : string) : Result A :=
  match d !! k with
  | Some v => ok v
  | None => raise (KeyError k)
  end.

(** [l[i]] on a list for a non-negative index. *)
Definition list_getitem {A} (l : list A) (i : nat) : Result A :=
  match l !! i with
  | Some v => ok v
  | None => raise IndexError
  end.

(** Monadic left fold: a [for] loop whose body may raise. *)
Fixpoint foldlM {A B} (f : B → A → Result B) (b : B) (l : list A) : Result B :=
  match l with
  | [] => ok b
  | a :: l' => let* b' := f b a in foldlM f b' l'
  end.

(** [range(n)] for a Python integer [n] (empty when [n <= 0]). *)
Definition range (n : Z) : list nat := seq 0 (Z.to_nat n).

(** ** [torchrec/distributed/model_tracker/tests/utils.py] *)

Module ModelTracker.

(** The fields of [EmbeddingConfig] / [EmbeddingBagConfig] that this file
    reads. *)
Record EmbeddingConfig : Type := {
  name : string;
  feature_names : list string;
  embedding_dim : Z;
}.

(** [ParameterConstraints] as constructed here (four keyword arguments). *)
Record ParameterConstraints : Type := {
  sharding_types : list string;
  compute_kernels : list string;
  pc_feature_names : list string;
  pooling_factors : list float;
}.

(** [nn.Linear(in_features, out_features)]: only the shape is tracked. *)
Record Linear : Type := {
  in_features : Z;
  out_features : Z;
}.

Section Utils.
(** [ShardingType] and [EmbeddingComputeKernel] are enums of the library;
    only their [.value] strings are used. *)
Context {ShardingType : Type}.
Variable sharding_value : ShardingType → string.
Variable FUSED_value : string.

(** [torch.device], the ["meta"] device, and the two embedding modules
    whose constructors may raise on a malformed configuration. *)
Context {Device EmbeddingCollection EmbeddingBagCollection : Type}.
Variable meta : Device.
Variable EmbeddingCollection_init :
  list EmbeddingConfig → Device → Result EmbeddingCollection.
Variable EmbeddingBagCollection_init :
  list EmbeddingConfig → Device → Result EmbeddingBagCollection.

Record EmbeddingTableProps : Type := {
  embedding_table_config : EmbeddingConfig;
  sharding : ShardingType;
  is_weighted : bool;
}.

Record TestECModel : Type := {
  ec : EmbeddingCollection;
  ec_seq : list Linear;
}.

Record TestEBCModel : Type := {
  ebc : EmbeddingBagCollection;
  ebc_seq : list Linear;
}.

(** [device if device else torch.device("meta")] *)
Definition device_or_meta (device : option Device) : Device :=
  match device with
  | Some d => d
  | None => meta
  end.

(** [[nn.Linear(embedding_dim, embedding_dim) for _ in range(3)]] *)
Definition linear_stack (dim : Z) : list Linear :=
  (λ _, {| in_features := dim; out_features := dim |}) <$> range 3.

Definition TestECModel_init (tables : list EmbeddingConfig)
    (device : option Device) : Result TestECModel :=
  let* ec := EmbeddingCollection_init tables (device_or_meta device) in
  let* t0 := list_getitem tables 0 in
  let dim := embedding_dim t0 in
  ok {| ec := ec; ec_seq := linear_stack dim |}.

Definition TestEBCModel_init (tables : list EmbeddingConfig)
    (device : option Device) : Result TestEBCModel :=
  let* ebc := EmbeddingBagCollection_init tables (device_or_meta device) in
  let* t0 := list_getitem tables 0 in
  let dim := embedding_dim t0 in
  ok {| ebc := ebc; ebc_seq := linear_stack dim |}.

Definition create_ec_model (tables : list EmbeddingTableProps)
    (device : option Device) : Result TestECModel :=
  TestECModel_init (embedding_table_config <$> tables) device.

Definition create_ebc_model (tables : list EmbeddingTableProps)
    (device : option Device) : Result TestEBCModel :=
  TestEBCModel_init (embedding_table_config <$> tables) device.

(** The record built for one table in the loop body. *)
Definition table_constraints (table : EmbeddingTableProps) : ParameterConstraints :=
  let sharding_types := [sharding_value (sharding table)] in
  {| sharding_types := sharding_types;
     compute_kernels := [FUSED_value];
     pc_feature_names := feature_names (embedding_table_config table);
     pooling_factors := [1.0%float] |}.

Definition generate_planner_constraints (tables : list EmbeddingTableProps)
    : gmap string ParameterConstraints :=
  foldl (λ constraints table,
           <[name (embedding_table_config table) := table_constraints table]> constraints)
        ∅ tables.

Definition table_name (table : EmbeddingTableProps) : string :=
  name (embedding_table_config table).

(** *** Facts about [generate_planner_constraints] *)

Lemma generate_planner_constraints_snoc tables table :
  generate_planner_constraints (tables ++ [table]) =
  <[table_name table := table_constraints table]> (generate_planner_constraints tables).
Proof. unfold generate_planner_constraints. by rewrite foldl_app. Qed.

Lemma generate_planner_constraints_dom tables :
  dom (generate_planner_constraints tables) = list_to_set (table_name <$> tables).
Proof.
  induction tables as [|table tables IH] using rev_ind.
  - unfold generate_planner_constraints; simpl. by rewrite dom_empty_L.
  - rewrite generate_planner_constraints_snoc, dom_insert_L, IH.
    rewrite fmap_app, list_to_set_app_L. simpl.
    by rewrite (right_id_L ∅ (∪)), (comm_L (∪)).
Qed.

Lemma generate_planner_constraints_lookup tables n :
  generate_planner_constraints tables !! n =
  table_constraints <$> last (filter (λ t, table_name t = n) tables).
Proof.
  induction tables as [|table tables IH] using rev_ind.
  - unfold generate_planner_constraints; simpl. by rewrite lookup_empty.
  - rewrite generate_planner_constraints_snoc, filter_app, lookup_insert.
    rewrite filter_cons, filter_nil.
    destruct (decide (table_name table = n)) as [Heq|Hne].
    + by rewrite last_snoc.
    + by rewrite app_nil_r.
Qed.

Lemma last_filter_name_NoDup tables table :
  NoDup (table_name <$> tables) → table ∈ tables →
  last (filter (λ t, table_name t = table_name table) tables) = Some table.
Proof.
  induction tables as [|t tables IH] using rev_ind; intros Hnd Hin.
  - by apply elem_of_nil in Hin.
  - rewrite fmap_app in Hnd. apply NoDup_app in Hnd as (Hnd & Hfresh & _).
    rewrite filter_app, filter_cons, filter_nil.
    apply elem_of_app in Hin as [Hin|Hin].
    + destruct (decide (table_name t = table_name table)) as [Heq|Hne].
      * exfalso. apply (Hfresh (table_name table)).
        -- apply list_elem_of_fmap. by exists table.
        -- rewrite <- Heq. simpl. apply list_elem_of_here.
      * rewrite app_nil_r. by apply IH.
    + apply list_elem_of_singleton in Hin as ->.
      rewrite decide_True by done. apply last_snoc.
Qed.

Lemma generate_planner_constraints_size tables :
  size (generate_planner_constraints tables) =
  length (remove_dups (table_name <$> tables)).
Proof.
  rewrite <- size_dom, generate_planner_constraints_dom.
  rewrite <- (size_list_to_set (C := gset string) (remove_dups _))
    by apply NoDup_remove_dups.
  f_equal. apply set_eq. intros n.
  by rewrite !elem_of_list_to_set, elem_of_remove_dups.
Qed.

Lemma remove_dups_NoDup {A} `{EqDecision A} (l : list A) :
  NoDup l → remove_dups l = l.
Proof.
  induction 1 as [|x l Hx Hnd IH]; simpl; [done|].
  destruct (decide_rel (∈) x l); [done|]. by rewrite IH.
Qed.

(** *** Properties of the planner-constraint generator *)

(** C3 (amended): the key set of the generated mapping is the set of table
    names, and its size is the number of distinct table names; it is the
    number of tables when the names are pairwise distinct. *)
Theorem generate_planner_constraints_keys tables :
  dom (generate_planner_constraints tables) = list_to_set (table_name <$> tables) ∧
  size (generate_planner_constraints tables) =
    length (remove_dups (table_name <$> tables)) ∧
  (NoDup (table_name <$> tables) →
   size (generate_planner_constraints tables) = length tables).
Proof.
  split; [apply generate_planner_constraints_dom|].
  split; [apply generate_planner_constraints_size|].
  intros Hnd. rewrite generate_planner_constraints_size.
  rewrite remove_dups_NoDup by done. apply length_fmap.
Qed.

(** C8 (amended): every name is mapped to the record built from the last
    table of the list bearing that name, a record with the singleton
    sharding list of that table's sharding value, the singleton kernel
    list [FUSED], that table's feature names and pooling factors [1.0];
    every input table's name has such an entry, and when the names are
    pairwise distinct the entry is the one built from the table itself. *)
Theorem generate_planner_constraints_entries tables :
  (∀ n, generate_planner_constraints tables !! n =
        table_constraints <$> last (filter (λ t, table_name t = n) tables)) ∧
  (∀ table, table ∈ tables →
     ∃ t', t' ∈ tables ∧ table_name t' = table_name table ∧
       generate_planner_constraints tables !! table_name table =
       Some {| sharding_types := [sharding_value (sharding t')];
               compute_kernels := [FUSED_value];
               pc_feature_names := feature_names (embedding_table_config t');
               pooling_factors := [1.0%float] |}) ∧
  (∀ table, NoDup (table_name <$> tables) → table ∈ tables →
     generate_planner_constraints tables !! table_name table =
     Some {| sharding_types := [sharding_value (sharding table)];
             compute_kernels := [FUSED_value];
             pc_feature_names := feature_names (embedding_table_config table);
             pooling_factors := [1.0%float] |}).
Proof.
  split; [apply generate_planner_constraints_lookup|]. split.
  - intros table Hin. rewrite generate_planner_constraints_lookup.
    destruct (last (filter (λ t, table_name t = table_name table) tables))
      as [t'|] eqn:Hlast.
    + exists t'. apply last_Some in Hlast as [l' Hl'].
      assert (t' ∈ filter (λ t, table_name t = table_name table) tables) as Ht'.
      { rewrite Hl'. apply elem_of_app. right. apply list_elem_of_here. }
      apply list_elem_of_filter in Ht' as [Hname Ht']. done.
    + exfalso. apply last_None in Hlast.
      assert (table ∈ filter (λ t, table_name t = table_name table) tables) as Ht.
      { by apply list_elem_of_filter. }
      rewrite Hlast in Ht. by apply elem_of_nil in Ht.
  - intros table Hnd Hin. rewrite generate_planner_constraints_lookup.
    by rewrite last_filter_name_NoDup.
Qed.

(** *** The synthetic model constructors *)

Lemma linear_stack_unfold dim :
  linear_stack dim =
  [ {| in_features := dim; out_features := dim |};
    {| in_features := dim; out_features := dim |};
    {| in_features := dim; out_features := dim |} ].
Proof. reflexivity. Qed.

(** C10: both constructors read [tables[0].embedding_dim].  On the empty
    list no model is ever returned, and the failure is [IndexError] as soon
    as the embedding module accepted the list; on a non-empty list that the
    embedding module accepts, the three linear layers are all of width
    [embedding_dim] of the first table, whatever the other tables are.  The
    same holds through [create_ec_model] and [create_ebc_model]. *)
Theorem test_models_require_tables device :
  (∀ m, TestECModel_init [] device ≠ ok m) ∧
  (∀ m, TestEBCModel_init [] device ≠ ok m) ∧
  (∀ m, create_ec_model [] device ≠ ok m) ∧
  (∀ m, create_ebc_model [] device ≠ ok m) ∧
  (∀ e, EmbeddingCollection_init [] (device_or_meta device) = ok e →
        TestECModel_init [] device = raise IndexError ∧
        create_ec_model [] device = raise IndexError) ∧
  (∀ e, EmbeddingBagCollection_init [] (device_or_meta device) = ok e →
        TestEBCModel_init [] device = raise IndexError ∧
        create_ebc_model [] device = raise IndexError) ∧
  (∀ t rest e,
     EmbeddingCollection_init (t :: rest) (device_or_meta device) = ok e →
     TestECModel_init (t :: rest) device =
     ok {| ec := e;
           ec_seq := [ {| in_features := embedding_dim t; out_features := embedding_dim t |};
                       {| in_features := embedding_dim t; out_features := embedding_dim t |};
                       {| in_features := embedding_dim t; out_features := embedding_dim t |} ] |}) ∧
  (∀ t rest e,
     EmbeddingBagCollection_init (t :: rest) (device_or_meta device) = ok e →
     TestEBCModel_init (t :: rest) device =
     ok {| ebc := e;
           ebc_seq := [ {| in_features := embedding_dim t; out_features := embedding_dim t |};
                        {| in_features := embedding_dim t; out_features := embedding_dim t |};
                        {| in_features := embedding_dim t; out_features := embedding_dim t |} ] |}).
Proof.
  unfold create_ec_model, create_ebc_model, TestECModel_init, TestEBCModel_init.
  repeat split.
  - intros m. simpl. by destruct (EmbeddingCollection_init _ _).
  - intros m. simpl. by destruct (EmbeddingBagCollection_init _ _).
  - intros m. simpl. by destruct (EmbeddingCollection_init _ _).
  - intros m. simpl. by destruct (EmbeddingBagCollection_init _ _).
  - simpl. by rewrite H.
  - simpl. by rewrite H.
  - simpl. by rewrite H.
  - simpl. by rewrite H.
  - intros t rest e He. by rewrite He.
  - intros t rest e He. by rewrite He.
Qed.

(** *** Further properties of the planner-constraint generator *)

Lemma generate_planner_constraints_NoDup_lookup tables n c :
  NoDup (table_name <$> tables) →
  generate_planner_constraints tables !! n = Some c ↔
  ∃ table, table ∈ tables ∧ table_name table = n ∧ c = table_constraints table.
Proof.
  intros Hnd. rewrite generate_planner_constraints_lookup. split.
  - intros Hlast.
    destruct (last (filter (λ t, table_name t = n) tables)) as [table|] eqn:Hl; [|done].
    injection Hlast as <-. exists table.
    apply last_Some in Hl as [l' Hl'].
    assert (table ∈ filter (λ t, table_name t = n) tables) as Hin.
    { rewrite Hl'. apply elem_of_app. right. apply list_elem_of_here. }
    apply list_elem_of_filter in Hin as [Hname Hin]. done.
  - intros (table & Hin & <- & ->). by rewrite last_filter_name_NoDup.
Qed.

(** A later list of tables overrides an earlier one: the constraints of a
    concatenation are the constraints of the second list, completed by those
    of the first. *)
Theorem generate_planner_constraints_app tables1 tables2 :
  generate_planner_constraints (tables1 ++ tables2) =
  generate_planner_constraints tables2 ∪ generate_planner_constraints tables1.
Proof.
  induction tables2 as [|table tables2 IH] using rev_ind.
  - rewrite app_nil_r. unfold generate_planner_constraints at 2. simpl.
    by rewrite (left_id_L ∅ (∪)).
  - rewrite app_assoc, !generate_planner_constraints_snoc, IH.
    by rewrite insert_union_l.
Qed.

(** With pairwise distinct table names the constraints do not depend on the
    order of the tables. *)
Theorem generate_planner_constraints_Permutation tables tables' :
  NoDup (table_name <$> tables) → tables ≡ₚ tables' →
  generate_planner_constraints tables = generate_planner_constraints tables'.
Proof.
  intros Hnd Hperm.
  assert (NoDup (table_name <$> tables')) as Hnd' by by rewrite <- Hperm.
  apply map_eq. intros n. apply option_eq. intros c.
  rewrite !generate_planner_constraints_NoDup_lookup by done.
  by setoid_rewrite Hperm.
Qed.

End Utils.

(** *** A concrete instance, used to evaluate the definitions *)

Inductive SampleSharding : Type := TABLE_WISE | ROW_WISE.

Definition sample_sharding_value (s : SampleSharding) : string :=
  match s with
  | TABLE_WISE => "table_wise"
  | ROW_WISE => "row_wise"
  end.

(** An embedding module that accepts every configuration and remembers it. *)
Definition sample_collection_init (tables : list EmbeddingConfig) (device : string)
    : Result (list EmbeddingConfig * string) :=
  ok (tables, device).

Definition sample_table (n : string) (dim : Z) (s : SampleSharding)
    : EmbeddingTableProps :=
  {| embedding_table_config :=
       {| name := n; feature_names := ["f_" +:+ n]; embedding_dim := dim |};
     sharding := s;
     is_weighted := false |}.

Definition distinct_tables : list EmbeddingTableProps :=
  [sample_table "t1" 8 TABLE_WISE; sample_table "t2" 16 ROW_WISE].

Definition clashing_tables : list EmbeddingTableProps :=
  [sample_table "t1" 8 TABLE_WISE; sample_table "t1" 16 ROW_WISE].

Lemma generate_planner_constraints_keys_witness :
  NoDup (table_name <$> distinct_tables) ∧
  size (generate_planner_constraints sample_sharding_value "fused" distinct_tables) =
  length distinct_tables.
Proof.
  assert (NoDup (table_name <$> distinct_tables)) as Hnd.
  { compute_done. }
  split; [exact Hnd|].
  exact (proj2 (proj2 (generate_planner_constraints_keys
                         sample_sharding_value "fused" distinct_tables)) Hnd).
Defined.

(** C3 as stated fails on two tables sharing a name: one entry for two
    tables. *)
Lemma generate_planner_constraints_size_counterexample :
  ¬ (∀ tables : list (@EmbeddingTableProps SampleSharding),
       size (generate_planner_constraints sample_sharding_value "fused" tables) =
       length tables).
Proof.
  intros H. specialize (H clashing_tables). vm_compute in H. discriminate H.
Qed.

Lemma generate_planner_constraints_entries_witness :
  NoDup (table_name <$> distinct_tables) ∧
  sample_table "t1" 8 TABLE_WISE ∈ distinct_tables ∧
  generate_planner_constraints sample_sharding_value "fused" distinct_tables !! "t1" =
  Some {| sharding_types := ["table_wise"];
          compute_kernels := ["fused"];
          pc_feature_names := ["f_t1"];
          pooling_factors := [1.0%float] |}.
Proof.
  assert (NoDup (table_name <$> distinct_tables)) as Hnd.
  { compute_done. }
  assert (sample_table "t1" 8 TABLE_WISE ∈ distinct_tables) as Hin.
  { apply list_elem_of_here. }
  split; [exact Hnd|]. split; [exact Hin|].
  exact (proj2 (proj2 (generate_planner_constraints_entries
                         sample_sharding_value "fused" distinct_tables))
           (sample_table "t1" 8 TABLE_WISE) Hnd Hin).
Defined.

(** C8 as stated fails on two tables sharing a name: the first table's name
    is mapped to the record of the second one. *)
Lemma generate_planner_constraints_entries_counterexample :
  ¬ (∀ (tables : list (@EmbeddingTableProps SampleSharding)) table,
       table ∈ tables →
       generate_planner_constraints sample_sharding_value "fused" tables
         !! table_name table =
       Some {| sharding_types := [sample_sharding_value (sharding table)];
               compute_kernels := ["fused"];
               pc_feature_names := feature_names (embedding_table_config table);
               pooling_factors := [1.0%float] |}).
Proof.
  intros H.
  assert (sample_table "t1" 8 TABLE_WISE ∈ clashing_tables) as Hin
    by apply list_elem_of_here.
  specialize (H clashing_tables (sample_table "t1" 8 TABLE_WISE) Hin).
  vm_compute in H. discriminate H.
Qed.

Lemma test_models_require_tables_witness :
  sample_collection_init [] "meta" = ok ([], "meta") ∧
  TestECModel_init "meta" sample_collection_init [] None = raise IndexError ∧
  TestECModel_init "meta" sample_collection_init
    (embedding_table_config <$> distinct_tables) None =
  ok {| ec := (embedding_table_config <$> distinct_tables, "meta");
        ec_seq := [ {| in_features := 8; out_features := 8 |};
                    {| in_features := 8; out_features := 8 |};
                    {| in_features := 8; out_features := 8 |} ] |}.
Proof.
  pose proof (test_models_require_tables (ShardingType := SampleSharding)
                "meta" sample_collection_init sample_collection_init None)
    as (_ & _ & _ & _ & Hec & _ & Hne & _).
  split; [reflexivity|]. split.
  - exact (proj1 (Hec ([], "meta") eq_refl)).
  - exact (Hne _ _ _ eq_refl).
Defined.

Lemma generate_planner_constraints_Permutation_witness :
  NoDup (table_name <$> distinct_tables) ∧
  distinct_tables ≡ₚ reverse distinct_tables ∧
  generate_planner_constraints sample_sharding_value "fused" distinct_tables =
  generate_planner_constraints sample_sharding_value "fused" (reverse distinct_tables).
Proof.
  assert (NoDup (table_name <$> distinct_tables)) as Hnd.
  { compute_done. }
  assert (distinct_tables ≡ₚ reverse distinct_tables) as Hperm.
  { symmetry. apply reverse_Permutation. }
  split; [exact Hnd|]. split; [exact Hperm|].
  exact (generate_planner_constraints_Permutation sample_sharding_value "fused"
           distinct_tables (reverse distinct_tables) Hnd Hperm).
Defined.

End ModelTracker.

(** ** [torchrec/metrics/test_utils/__init__.py] *)

Module MetricsTestUtils.

(** The fields of [RecTaskInfo] that the harness reads. *)
Record RecTaskInfo : Type := {
  name : string;
  label_name : string;
  prediction_name : string;
  weight_name : string;
  tensor_name : option string;
}.

Definition gen_test_tasks (task_names : list string) : list RecTaskInfo :=
  (λ task_name,
     {| name := task_name;
        label_name := task_name +:+ "-label";
        prediction_name := task_name +:+ "-prediction";
        weight_name := task_name +:+ "-weight";
        tensor_name := Some (task_name +:+ "-tensor") |}) <$> task_names.

(** [task_info.tensor_name or "tensor"]: [None] and the empty string are
    both falsy. *)
Definition tensor_name_or_default (task_info : RecTaskInfo) : string :=
  match tensor_name task_info with
  | Some EmptyString => "tensor"
  | Some s => s
  | None => "tensor"
  end.

Definition BATCH_SIZE : Z := 32.
Definition BATCH_WINDOW_SIZE : Z := 5.
Definition NSTEPS : Z := 10.

Section Harness.

(** Tensors and the tensor operations of the framework that the harness
    calls.  [iadd s v] is the value of [s] after [s += v]. *)
Context {Tensor : Type}.
Variable zeros_like : Tensor → Tensor.
Variable iadd : Tensor → Tensor → Tensor.
Variable torch_cat : list Tensor → Tensor.
Variable torch_ones : Z → Tensor.
Variable double : Tensor → Tensor.
Variable scalar : float → Tensor.

(** [dist.all_gather(aggregated_list, v)] at step [i] for key [k]: the
    contents of [aggregated_list] afterwards, one tensor per rank. *)
Variable dist_all_gather : nat → string → list Tensor → Tensor → list Tensor.

(** The global random generator of the framework, as explicit state.
    [manual_seed] replaces the state by one that depends on the seed only. *)
Context {RngState : Type}.
Variable manual_seed : Z → Result RngState.
Variable torch_randint : Z → Z → Z → RngState → Result (Tensor * RngState).
Variable torch_rand : list Z → RngState → Result (Tensor * RngState).

(** The arguments of [gen_test_batch] other than the seed. *)
Record BatchArgs : Type := {
  batch_size : Z;
  arg_label_name : string;
  arg_prediction_name : string;
  arg_weight_name : string;
  arg_tensor_name : string;
  mask_tensor_name : option string;
  label_value : option Tensor;
  prediction_value : option Tensor;
  weight_value : option Tensor;
  mask : option Tensor;
  n_classes : option Z;
}.

(** [n_classes or 2] *)
Definition n_classes_or_2 (n_classes : option Z) : Z :=
  match n_classes with
  | Some n => if decide (n = 0) then 2 else n
  | None => 2
  end.

Definition gen_test_batch (a : BatchArgs) (seed : option Z) (g : RngState)
    : Result (gmap string Tensor * RngState) :=
  let* g := match seed with
            | Some s => manual_seed s
            | None => ok g
            end in
  let* '(label, g) :=
    match label_value a with
    | Some v => ok (v, g)
    | None =>
        let* '(t, g) := torch_randint 0 (n_classes_or_2 (n_classes a)) (batch_size a) g in
        ok (double t, g)
    end in
  let* '(prediction, g) :=
    match prediction_value a with
    | Some v => ok (v, g)
    | None =>
        match n_classes a with
        | None => torch_rand [batch_size a] g
        | Some n => torch_rand [batch_size a; n] g
        end
    end in
  let* '(weight, g) :=
    match weight_value a with
    | Some v => ok (v, g)
    | None => torch_rand [batch_size a] g
    end in
  let* '(tensor, g) := torch_rand [batch_size a] g in
  let test_batch :=
    <[arg_tensor_name a := tensor]>
      (<[arg_weight_name a := weight]>
         (<[arg_prediction_name a := prediction]>
            (<[arg_label_name a := label]> ∅))) in
  let test_batch :=
    match mask_tensor_name a with
    | Some mask_name =>
        let mask := match mask a with
                    | Some m => m
                    | None => torch_ones (batch_size a)
                    end in
        <[mask_name := mask]> test_batch
    | None => test_batch
    end in
  ok (test_batch, g).

(** *** [TestMetric] *)

(** The two abstract static methods a subclass supplies. *)
Record TestMetricClass : Type := {
  _get_states : Tensor → Tensor → Tensor → Tensor → gmap string Tensor;
  _compute : gmap string Tensor → Tensor;
}.

Record TestMetric : Type := {
  clazz : TestMetricClass;
  world_size : Z;
  _rec_tasks : list RecTaskInfo;
  _compute_lifetime_metric : bool;
  _compute_window_metric : bool;
  _local_compute_lifetime_metric : bool;
  _local_compute_window_metric : bool;
}.

(** [test_clazz(world_size, tasks)]: the four flags default to [True]. *)
Definition TestMetric_init (cls : TestMetricClass) (world_size : Z)
    (rec_tasks : list RecTaskInfo) : TestMetric :=
  {| clazz := cls;
     world_size := world_size;
     _rec_tasks := rec_tasks;
     _compute_lifetime_metric := true;
     _compute_window_metric := true;
     _local_compute_lifetime_metric := true;
     _local_compute_window_metric := true |}.

(** The body of the loop of [_aggregate] for one item [(k, v)]. *)
Definition aggregate_item (k : string) (v : Tensor) (states : gmap string Tensor)
    : gmap string Tensor :=
  let states :=
    match states !! k with
    | None => <[k := zeros_like v]> states
    | Some _ => states
    end in
  alter (λ s, iadd s v) k states.

Definition _aggregate (states new_states : gmap string Tensor) : gmap string Tensor :=
  map_fold aggregate_item states new_states.

(** The four accumulators of [compute], each a dictionary from task name to
    states. *)
Record Accumulators : Type := {
  lifetime_states : gmap string (gmap string Tensor);
  window_states : gmap string (gmap string Tensor);
  local_lifetime_states : gmap string (gmap string Tensor);
  local_window_states : gmap string (gmap string Tensor);
}.

(** [{task_info.name: {} for task_info in self._rec_tasks}] *)
Definition empty_states (tasks : list RecTaskInfo) : gmap string (gmap string Tensor) :=
  foldl (λ d task_info, <[name task_info := ∅]> d) ∅ tasks.

Definition init_accumulators (tasks : list RecTaskInfo) : Accumulators :=
  {| lifetime_states := empty_states tasks;
     window_states := empty_states tasks;
     local_lifetime_states := empty_states tasks;
     local_window_states := empty_states tasks |}.

(** The inner loop over [model_outs[i].items()]: gather every tensor of the
    step and store the concatenation under its key. *)
Definition gather_step (world_size : Z) (i : nat) (model_out : gmap string Tensor)
    (aggregated_model_out : gmap string Tensor) : gmap string Tensor :=
  map_fold
    (λ k v aggregated_model_out,
       let aggregated_list := replicate (Z.to_nat world_size) (zeros_like v) in
       let aggregated_list := dist_all_gather i k aggregated_list v in
       <[k := torch_cat aggregated_list]> aggregated_model_out)
    aggregated_model_out model_out.

(** The guards of the two windowed accumulations (lines 172 and 182-185). *)
Definition window_guard (tm : TestMetric) (nsteps batch_window_size : Z) (i : nat) : bool :=
  _compute_window_metric tm && bool_decide (nsteps - batch_window_size ≤ Z.of_nat i).

Definition local_window_guard (tm : TestMetric) (nsteps batch_window_size : Z) (i : nat)
    : bool :=
  _local_compute_window_metric tm && bool_decide (nsteps - batch_window_size ≤ Z.of_nat i).

(** [self._aggregate(acc[task_info.name], states)] *)
Definition aggregate_into (acc : gmap string (gmap string Tensor)) (task_name : string)
    (states : gmap string Tensor) : gmap string (gmap string Tensor) :=
  alter (λ st, _aggregate st states) task_name acc.

(** The body of [for task_info in self._rec_tasks] at step [i]. *)
Definition task_step (tm : TestMetric) (nsteps batch_window_size : Z) (i : nat)
    (model_out aggregated_model_out : gmap string Tensor)
    (acc : Accumulators) (task_info : RecTaskInfo) : Result Accumulators :=
  let* labels := getitem aggregated_model_out (label_name task_info) in
  let* predictions := getitem aggregated_model_out (prediction_name task_info) in
  let* weights := getitem aggregated_model_out (weight_name task_info) in
  let* tensor := getitem aggregated_model_out (tensor_name_or_default task_info) in
  let states := _get_states (clazz tm) labels predictions weights tensor in
  let lifetime :=
    if _compute_lifetime_metric tm
    then aggregate_into (lifetime_states acc) (name task_info) states
    else lifetime_states acc in
  let window :=
    if window_guard tm nsteps batch_window_size i
    then aggregate_into (window_states acc) (name task_info) states
    else window_states acc in
  let* labels := getitem model_out (label_name task_info) in
  let* predictions := getitem model_out (prediction_name task_info) in
  let* weights := getitem model_out (weight_name task_info) in
  let* tensor := getitem model_out (tensor_name_or_default task_info) in
  let local_states := _get_states (clazz tm) labels predictions weights tensor in
  let local_lifetime :=
    if _local_compute_lifetime_metric tm
    then aggregate_into (local_lifetime_states acc) (name task_info) local_states
    else local_lifetime_states acc in
  let local_window :=
    if local_window_guard tm nsteps batch_window_size i
    then aggregate_into (local_window_states acc) (name task_info) local_states
    else local_window_states acc in
  ok {| lifetime_states := lifetime;
        window_states := window;
        local_lifetime_states := local_lifetime;
        local_window_states := local_window |}.

(** The body of [for i in range(nsteps)]; the loop state is
    [aggregated_model_out] together with the accumulators. *)
Definition compute_step (tm : TestMetric) (model_outs : list (gmap string Tensor))
    (nsteps batch_window_size : Z)
    (st : gmap string Tensor * Accumulators) (i : nat)
    : Result (gmap string Tensor * Accumulators) :=
  let* model_out := list_getitem model_outs i in
  let aggregated_model_out := gather_step (world_size tm) i model_out (fst st) in
  let* acc :=
    foldlM (task_step tm nsteps batch_window_size i model_out aggregated_model_out)
           (snd st) (_rec_tasks tm) in
  ok (aggregated_model_out, acc).

(** The first loop of [compute]: the accumulators after all steps. *)
Definition compute_states (tm : TestMetric) (model_outs : list (gmap string Tensor))
    (nsteps batch_window_size : Z) : Result Accumulators :=
  let* st :=
    foldlM (compute_step tm model_outs nsteps batch_window_size)
           (∅, init_accumulators (_rec_tasks tm)) (range nsteps) in
  ok (snd st).

Definition TestRecMetricOutput : Type :=
  gmap string Tensor * gmap string Tensor * gmap string Tensor * gmap string Tensor.

(** [self._compute(states[task_info.name]) if flag else torch.tensor(0.0)] *)
Definition metric_value (tm : TestMetric) (flag : bool)
    (states : gmap string (gmap string Tensor)) (task_info : RecTaskInfo) : Tensor :=
  if flag then _compute (clazz tm) (states !!! name task_info) else scalar 0.0%float.

(** The second loop of [compute], filling the four result dictionaries. *)
Definition compute_metrics (tm : TestMetric) (acc : Accumulators) : TestRecMetricOutput :=
  foldl
    (λ '(lifetime_metrics, window_metrics, local_lifetime_metrics, local_window_metrics)
       task_info,
       (<[name task_info :=
            metric_value tm (_compute_lifetime_metric tm) (lifetime_states acc) task_info]>
          lifetime_metrics,
        <[name task_info :=
            metric_value tm (_compute_window_metric tm) (window_states acc) task_info]>
          window_metrics,
        <[name task_info :=
            metric_value tm (_local_compute_lifetime_metric tm)
              (local_lifetime_states acc) task_info]>
          local_lifetime_metrics,
        <[name task_info :=
            metric_value tm (_local_compute_window_metric tm)
              (local_window_states acc) task_info]>
          local_window_metrics))
    (∅, ∅, ∅, ∅) (_rec_tasks tm).

Definition compute (tm : TestMetric) (model_outs : list (gmap string Tensor))
    (nsteps batch_window_size : Z) (timestamps : option (list float))
    : Result TestRecMetricOutput :=
  let* acc := compute_states tm model_outs nsteps batch_window_size in
  ok (compute_metrics tm acc).

(** *** The helpers around the target metric object *)

(** [get_test_rec_metric_value] (lines 324-336). *)
Definition get_test_rec_metric_value (test_clazz : option TestMetricClass)
    (world_size : Z) (nsteps batch_window_size : Z)
    (model_outs : list (gmap string Tensor)) (tasks : list RecTaskInfo)
    (timestamps : option (list float)) : Result TestRecMetricOutput :=
  match test_clazz with
  | Some cls =>
      let test_metric_obj := TestMetric_init cls world_size tasks in
      compute test_metric_obj model_outs nsteps batch_window_size timestamps
  | None => ok (∅, ∅, ∅, ∅)
  end.

(** Values passed through [**kwargs]. *)
Inductive PyValue : Type :=
  | PyInt (n : Z)
  | PyBool (b : bool)
  | PyStr (s : string).

(** The keyword arguments of a call [target_clazz(...)]; an argument the
    call does not pass is [None]. *)
Context {RecComputeMode : Type}.

Record RecMetricArgs : Type := {
  arg_world_size : Z;
  arg_my_rank : Z;
  arg_batch_size : Z;
  arg_tasks : list RecTaskInfo;
  arg_compute_mode : option RecComputeMode;
  arg_window_size : Z;
  arg_fused_update_limit : option Z;
  arg_compute_on_all_ranks : bool;
  arg_should_validate_update : option bool;
  arg_kwargs : gmap string PyValue;
}.

(** [if n_classes: kwargs["number_of_classes"] = n_classes] *)
Definition with_number_of_classes (n_classes : option Z) (kwargs : gmap string PyValue)
    : gmap string PyValue :=
  match n_classes with
  | Some n => if decide (n = 0) then kwargs else <["number_of_classes" := PyInt n]> kwargs
  | None => kwargs
  end.

(** The construction of the target object in [get_target_rec_metric_value]
    (lines 279-296). *)
Definition get_target_rec_metric_value_args (target_compute_mode : RecComputeMode)
    (fused_update_limit : Z) (compute_on_all_ranks should_validate_update : bool)
    (world_size my_rank batch_size batch_window_size : Z)
    (n_classes : option Z) (zero_weights : bool)
    (tasks : list RecTaskInfo) (kwargs : gmap string PyValue) : RecMetricArgs :=
  let window_size := world_size * batch_size * batch_window_size in
  let kwargs := with_number_of_classes n_classes kwargs in
  let kwargs :=
    if zero_weights
    then <["allow_missing_label_with_zero_weight" := PyBool true]> kwargs
    else kwargs in
  {| arg_world_size := world_size;
     arg_my_rank := my_rank;
     arg_batch_size := batch_size;
     arg_tasks := tasks;
     arg_compute_mode := Some target_compute_mode;
     arg_window_size := window_size;
     arg_fused_update_limit := Some fused_update_limit;
     arg_compute_on_all_ranks := compute_on_all_ranks;
     arg_should_validate_update := Some should_validate_update;
     arg_kwargs := kwargs |}.

(** The construction of the target object in [sync_test_helper]
    (lines 434-447). *)
Definition sync_test_helper_args (compute_on_all_ranks : bool)
    (world_size rank batch_size batch_window_size : Z)
    (n_classes : option Z)
    (tasks : list RecTaskInfo) (kwargs : gmap string PyValue) : RecMetricArgs :=
  let kwargs := with_number_of_classes n_classes kwargs in
  {| arg_world_size := world_size;
     arg_my_rank := rank;
     arg_batch_size := batch_size;
     arg_tasks := tasks;
     arg_compute_mode := None;
     arg_window_size := batch_window_size * world_size;
     arg_fused_update_limit := None;
     arg_compute_on_all_ranks := compute_on_all_ranks;
     arg_should_validate_update := None;
     arg_kwargs := kwargs |}.

(** The target metric class and the functions of the framework used on it. *)
Context {Target : Type}.
Variable target_clazz : RecMetricArgs → Result Target.
Variable get_required_inputs : Target → list string.
Variable target_update :
  Target → gmap string Tensor → gmap string Tensor → gmap string Tensor →
  gmap string Tensor → Result Target.
Variable target_compute : Target → Result (gmap string Tensor * Target).
Variable target_reset : Target → Result Target.
Variable parse_task_model_outputs :
  list RecTaskInfo → gmap string Tensor → list string →
  Result (gmap string Tensor * gmap string Tensor * gmap string Tensor * gmap string Tensor).
Variable allclose : Tensor → Tensor → bool.

(** What the helper does to the outside, in order; [Compute res] is a call
    of [compute()] on the target that returned [res]. *)
Inductive Event : Type :=
  | InitProcessGroup (world_size rank : Z)
  | Construct (args : RecMetricArgs)
  | Update (predictions labels weights required_inputs : gmap string Tensor)
  | Compute (res : gmap string Tensor)
  | AssertAllclose (expected actual : Tensor)
  | Reset
  | DestroyProcessGroup.

(** [[gen_test_batch(..., seed=seed) for task in tasks]], threading the
    generator. *)
Fixpoint gen_task_batches (args : RecTaskInfo → BatchArgs) (seed : option Z)
    (tasks : list RecTaskInfo) (g : RngState)
    : Result (list (gmap string Tensor) * RngState) :=
  match tasks with
  | [] => ok ([], g)
  | task :: tasks' =>
      let* '(batch, g) := gen_test_batch (args task) seed g in
      let* '(batches, g) := gen_task_batches args seed tasks' g in
      ok (batch :: batches, g)
  end.

(** [{k: v for d in _model_outs for k, v in d.items()}]: a later dictionary
    overrides an earlier one. *)
Definition merge_batches (_model_outs : list (gmap string Tensor)) : gmap string Tensor :=
  foldl (λ merged d, d ∪ merged) ∅ _model_outs.

(** The arguments of the call of [gen_test_batch] in [sync_test_helper]
    (lines 452-461). *)
Definition sync_batch_args (batch_size : Z) (n_classes : option Z)
    (task : RecTaskInfo) : BatchArgs :=
  {| batch_size := batch_size;
     arg_label_name := label_name task;
     arg_prediction_name := prediction_name task;
     arg_weight_name := weight_name task;
     arg_tensor_name := tensor_name_or_default task;
     mask_tensor_name := None;
     label_value := None;
     prediction_value := None;
     weight_value := None;
     mask := None;
     n_classes := n_classes |}.

(** Lines 451-465: the single model output of the sync test. *)
Definition sync_model_outs (batch_size : Z) (n_classes : option Z)
    (tasks : list RecTaskInfo) (g : RngState)
    : Result (list (gmap string Tensor) * RngState) :=
  let* '(_model_outs, g) :=
    gen_task_batches (sync_batch_args batch_size n_classes) (Some 42) tasks g in
  ok ([merge_batches _model_outs], g).

(** Lines 495-502: the reference values of the sync test. *)
Definition sync_test_metrics (test_clazz : option TestMetricClass) (world_size : Z)
    (batch_window_size : Z) (tasks : list RecTaskInfo)
    (model_outs : list (gmap string Tensor)) : Result TestRecMetricOutput :=
  match test_clazz with
  | Some cls =>
      let test_metric_obj := TestMetric_init cls world_size tasks in
      let model_outs := model_outs ++ model_outs in
      compute test_metric_obj model_outs 2 batch_window_size None
  | None => ok (∅, ∅, ∅, ∅)
  end.

(** One [parse_task_model_outputs] followed by one [update] of the target. *)
Definition update_once (tasks : list RecTaskInfo) (model_out : gmap string Tensor)
    (required_inputs_list : list string) (st : Target * list Event)
    : Result (Target * list Event) :=
  let* '(labels, predictions, weights, required_inputs) :=
    parse_task_model_outputs tasks model_out required_inputs_list in
  let* target := target_update (fst st) predictions labels weights required_inputs in
  ok (target, snd st ++ [Update predictions labels weights required_inputs]).

(** [for _ in range(n): ...update...] *)
Definition update_times (n : Z) (tasks : list RecTaskInfo)
    (model_out : gmap string Tensor) (required_inputs_list : list string)
    (st : Target * list Event) : Result (Target * list Event) :=
  foldlM (λ st _, update_once tasks model_out required_inputs_list st) st (range n).

(** The result key compared against the reference (lines 507-517). *)
Definition window_key (metric_name task_name : string) : string :=
  if decide (metric_name = "serving_calibration")
  then metric_name +:+ "-" +:+ task_name +:+ "|window_calibration"
  else metric_name +:+ "-" +:+ task_name +:+ "|window_" +:+ metric_name.

(** [target_metric_obj.compute()] followed by the comparison on rank 0. *)
Definition compute_and_check (rank : Z) (metric_name : string) (task_names : list string)
    (test_metrics : TestRecMetricOutput) (st : Target * list Event)
    : Result (Target * list Event) :=
  let* '(res, target) := target_compute (fst st) in
  let log := snd st ++ [Compute res] in
  if decide (rank = 0) then
    let* task0 := list_getitem task_names 0 in
    let* expected := getitem (test_metrics.1.1.2) task0 in
    let* actual := getitem res (window_key metric_name task0) in
    if allclose expected actual
    then ok (target, log ++ [AssertAllclose expected actual])
    else raise AssertionError
  else ok (target, log).

(** [sync_test_helper].  [env_rank] and [env_world_size] are the values of
    [RANK] and [WORLD_SIZE] in the environment; the parameters
    [target_compute_mode], [world_size], [fused_update_limit],
    [should_validate_update] and [zero_weights] of the source are not read. *)
Definition sync_test_helper (env_rank env_world_size : Z)
    (test_clazz : option TestMetricClass) (task_names : list string)
    (metric_name : string) (compute_on_all_ranks : bool)
    (batch_size batch_window_size : Z) (n_classes : option Z)
    (kwargs : gmap string PyValue) (g : RngState)
    : Result (list Event * RngState) :=
  let rank := env_rank in
  let world_size := env_world_size in
  let log := [InitProcessGroup world_size rank] in
  let tasks := gen_test_tasks task_names in
  let args :=
    sync_test_helper_args compute_on_all_ranks world_size rank batch_size
      batch_window_size n_classes tasks kwargs in
  let* target_metric_obj := target_clazz args in
  let log := log ++ [Construct args] in
  let* '(model_outs, g) := sync_model_outs batch_size n_classes tasks g in
  let* model_out := list_getitem model_outs 0 in
  let required_inputs_list := get_required_inputs target_metric_obj in
  let* st :=
    if decide (rank = 0)
    then update_times 3 tasks model_out required_inputs_list (target_metric_obj, log)
    else if decide (rank = 1)
    then update_times 1 tasks model_out required_inputs_list (target_metric_obj, log)
    else ok (target_metric_obj, log) in
  let* test_metrics :=
    sync_test_metrics test_clazz world_size batch_window_size tasks model_outs in
  let* st := compute_and_check rank metric_name task_names test_metrics st in
  let* target_metric_obj := target_reset (fst st) in
  let st := (target_metric_obj, snd st ++ [Reset]) in
  let* st :=
    if decide (rank = 0)
    then update_times 1 tasks model_out required_inputs_list st
    else if decide (rank = 1)
    then update_times 3 tasks model_out required_inputs_list st
    else ok st in
  let* st := compute_and_check rank metric_name task_names test_metrics st in
  ok (snd st ++ [DestroyProcessGroup], g).

(** *** The per-step states, separated from their accumulation *)

(** What one iteration of the task loop feeds to the accumulators: the
    states of the all-ranks view and the states of the rank's own tensors. *)
Record StepStates : Type := {
  ev_step : nat;
  ev_task : string;
  ev_states : gmap string Tensor;
  ev_local_states : gmap string Tensor;
}.

Definition task_states (tm : TestMetric) (i : nat)
    (model_out aggregated_model_out : gmap string Tensor) (task_info : RecTaskInfo)
    : Result StepStates :=
  let* labels := getitem aggregated_model_out (label_name task_info) in
  let* predictions := getitem aggregated_model_out (prediction_name task_info) in
  let* weights := getitem aggregated_model_out (weight_name task_info) in
  let* tensor := getitem aggregated_model_out (tensor_name_or_default task_info) in
  let* local_labels := getitem model_out (label_name task_info) in
  let* local_predictions := getitem model_out (prediction_name task_info) in
  let* local_weights := getitem model_out (weight_name task_info) in
  let* local_tensor := getitem model_out (tensor_name_or_default task_info) in
  ok {| ev_step := i;
        ev_task := name task_info;
        ev_states := _get_states (clazz tm) labels predictions weights tensor;
        ev_local_states :=
          _get_states (clazz tm) local_labels local_predictions local_weights
            local_tensor |}.

Fixpoint mapM {A B} (f : A → Result B) (l : list A) : Result (list B) :=
  match l with
  | [] => ok []
  | a :: l' =>
      let* b := f a in
      let* bs := mapM f l' in
      ok (b :: bs)
  end.

(** The states of every (step, task) pair in loop order; the all-ranks view
    [aggregated_model_out] is carried from one step to the next. *)
Fixpoint step_states (tm : TestMetric) (model_outs : list (gmap string Tensor))
    (steps : list nat) (aggregated_model_out : gmap string Tensor)
    : Result (list StepStates) :=
  match steps with
  | [] => ok []
  | i :: steps' =>
      let* model_out := list_getitem model_outs i in
      let aggregated_model_out :=
        gather_step (world_size tm) i model_out aggregated_model_out in
      let* evs := mapM (task_states tm i model_out aggregated_model_out) (_rec_tasks tm) in
      let* rest := step_states tm model_outs steps' aggregated_model_out in
      ok (evs ++ rest)
  end.

Definition apply_states (tm : TestMetric) (nsteps batch_window_size : Z)
    (acc : Accumulators) (ev : StepStates) : Accumulators :=
  {| lifetime_states :=
       if _compute_lifetime_metric tm
       then aggregate_into (lifetime_states acc) (ev_task ev) (ev_states ev)
       else lifetime_states acc;
     window_states :=
       if window_guard tm nsteps batch_window_size (ev_step ev)
       then aggregate_into (window_states acc) (ev_task ev) (ev_states ev)
       else window_states acc;
     local_lifetime_states :=
       if _local_compute_lifetime_metric tm
       then aggregate_into (local_lifetime_states acc) (ev_task ev) (ev_local_states ev)
       else local_lifetime_states acc;
     local_window_states :=
       if local_window_guard tm nsteps batch_window_size (ev_step ev)
       then aggregate_into (local_window_states acc) (ev_task ev) (ev_local_states ev)
       else local_window_states acc |}.

(** One guarded accumulator, seen alone. *)
Definition accumulate_guarded (sel : StepStates → gmap string Tensor) (G : nat → bool)
    (acc : gmap string (gmap string Tensor)) (evs : list StepStates)
    : gmap string (gmap string Tensor) :=
  foldl (λ acc ev,
           if G (ev_step ev) then aggregate_into acc (ev_task ev) (sel ev) else acc)
        acc evs.

(** Membership of step [i] in the trailing window [[max(0, N - W), N)]. *)
Definition trailing (nsteps batch_window_size : Z) (i : nat) : bool :=
  bool_decide (Z.max 0 (nsteps - batch_window_size) ≤ Z.of_nat i < nsteps).

Definition every_step (i : nat) : bool := true.

(** The sum, from the empty mapping, of the selected states of task [n] over
    the steps satisfying [P]. *)
Definition task_accumulation (sel : StepStates → gmap string Tensor) (P : nat → bool)
    (evs : list StepStates) (n : string) : gmap string Tensor :=
  foldl _aggregate ∅
    (sel <$> filter (λ ev, ev_task ev = n ∧ P (ev_step ev) = true) evs).

(** A dictionary with one entry per task name. *)
Definition per_task {V} (tasks : list RecTaskInfo) (f : string → V) : gmap string V :=
  list_to_map ((λ task_info, (name task_info, f (name task_info))) <$> tasks).

Definition states_map (tm : TestMetric) (flag : bool)
    (f : string → gmap string Tensor) : gmap string (gmap string Tensor) :=
  per_task (_rec_tasks tm) (λ n, if flag then f n else ∅).

Definition task_metrics (tm : TestMetric) (flag : bool)
    (f : string → gmap string Tensor) : gmap string Tensor :=
  per_task (_rec_tasks tm)
    (λ n, if flag then _compute (clazz tm) (f n) else scalar 0.0%float).

(** *** The rest of the harness *)

(** The characters of a string, and back. *)
Fixpoint chars (s : string) : list Ascii.ascii :=
  match s with
  | EmptyString => []
  | String c s' => c :: chars s'
  end.

Fixpoint of_chars (l : list Ascii.ascii) : string :=
  match l with
  | [] => EmptyString
  | c :: l' => String c (of_chars l')
  end.

(** The four keys [compute] reads for a task, in the order it reads them. *)
Definition task_keys (task_info : RecTaskInfo) : list string :=
  [label_name task_info; prediction_name task_info; weight_name task_info;
   tensor_name_or_default task_info].

(** [torch.zeros(batch_size)] *)
Variable torch_zeros : Z → Tensor.

(** The arguments of the call of [gen_test_batch] in
    [rec_metric_value_test_helper] (lines 257-266). *)
Definition value_batch_args (batch_size : Z) (n_classes : option Z)
    (weight_value label_value : option Tensor) (task : RecTaskInfo) : BatchArgs :=
  {| batch_size := batch_size;
     arg_label_name := label_name task;
     arg_prediction_name := prediction_name task;
     arg_weight_name := weight_name task;
     arg_tensor_name := tensor_name_or_default task;
     mask_tensor_name := None;
     label_value := label_value;
     prediction_value := None;
     weight_value := weight_value;
     mask := None;
     n_classes := n_classes |}.

(** The loop that fills [model_outs] in [rec_metric_value_test_helper]
    (lines 246-269); the batches are not seeded. *)
Definition gen_model_outs (tasks : list RecTaskInfo) (batch_size nsteps : Z)
    (n_classes : option Z) (zero_weights zero_labels : bool) (g : RngState)
    : Result (list (gmap string Tensor) * RngState) :=
  foldlM
    (λ '(model_outs, g) _,
       let weight_value := if zero_weights then Some (torch_zeros batch_size) else None in
       let label_value := if zero_labels then Some (torch_zeros batch_size) else None in
       let* '(_model_outs, g) :=
         gen_task_batches (value_batch_args batch_size n_classes weight_value label_value)
           None tasks g in
       ok (model_outs ++ [merge_batches _model_outs], g))
    ([], g) (range nsteps).

(** The identity of [target_clazz], as far as [metric_test_helper] tests it. *)
Inductive MetricClass : Type :=
  | AUCMetric
  | AUPRCMetric
  | RAUCMetric
  | OtherMetric (qualname : string).

Global Instance MetricClass_eq_dec : EqDecision MetricClass.
Proof. solve_decision. Defined.

(** [f"{namespace}-{name}|{prefix}{metric_name}"] *)
Definition target_metric_key (namespace name prefix metric_name : string) : string :=
  namespace +:+ "-" +:+ name +:+ "|" +:+ prefix +:+ metric_name.

(** [assert torch.allclose(target_metrics[key], test_metrics_k[name])] *)
Definition assert_allclose (target_metrics : gmap string Tensor) (key : string)
    (test_metrics_k : gmap string Tensor) (name : string) : Result unit :=
  let* actual := getitem target_metrics key in
  let* expected := getitem test_metrics_k name in
  if allclose actual expected then ok () else raise AssertionError.

(** The body of [for name in task_names] in [metric_test_helper]
    (lines 678-708). *)
Definition check_task (target_clazz_id : MetricClass) (namespace metric_name : string)
    (target_metrics : gmap string Tensor) (test_metrics : TestRecMetricOutput)
    (name : string) : Result unit :=
  let* _ :=
    if bool_decide (target_clazz_id ≠ AUCMetric ∧ target_clazz_id ≠ AUPRCMetric ∧
                    target_clazz_id ≠ RAUCMetric)
    then
      let* _ := assert_allclose target_metrics
                  (target_metric_key namespace name "lifetime_" metric_name)
                  (test_metrics.1.1.1) name in
      assert_allclose target_metrics
        (target_metric_key namespace name "local_lifetime_" metric_name)
        (test_metrics.1.2) name
    else ok () in
  let* _ := assert_allclose target_metrics
              (target_metric_key namespace name "window_" metric_name)
              (test_metrics.1.1.2) name in
  assert_allclose target_metrics
    (target_metric_key namespace name "local_window_" metric_name)
    (test_metrics.2) name.

(** The comparison at the end of [metric_test_helper] (lines 676-708). *)
Definition check_task_metrics (rank : Z) (target_clazz_id : MetricClass)
    (namespace metric_name : string) (task_names : list string)
    (target_metrics : gmap string Tensor) (test_metrics : TestRecMetricOutput)
    : Result unit :=
  if decide (rank = 0)
  then foldlM (λ _ name, check_task target_clazz_id namespace metric_name
                           target_metrics test_metrics name) () task_names
  else ok ().

(** The generator of the [random] module, as explicit state. *)
Context {PyRng : Type}.
Variable random_uniform : float → float → PyRng → float * PyRng.

Definition gen_test_timestamps (nsteps : Z) (r : PyRng) : Result (list float * PyRng) :=
  let timestamps := (λ _, 0.0%float) <$> range nsteps in
  foldlM
    (λ '(timestamps, r) step,
       let '(time_lapse, r) := random_uniform 1.0%float 5.0%float r in
       let* previous := list_getitem timestamps (step - 1) in
       if decide (step < length timestamps)%nat
       then ok (<[step := (previous + time_lapse)%float]> timestamps, r)
       else raise IndexError)
    (timestamps, r) (seq 1 (Z.to_nat (nsteps - 1))).

(** [k] successive draws of [random.uniform(1.0, 5.0)]. *)
Fixpoint uniform_draws (k : nat) (r : PyRng) : list float * PyRng :=
  match k with
  | O => ([], r)
  | S k' =>
      let '(x, r) := random_uniform 1.0%float 5.0%float r in
      let '(xs, r) := uniform_draws k' r in
      (x :: xs, r)
  end.

(** [t], [t + x1], [(t + x1) + x2], ... *)
Fixpoint running_sums (t : float) (lapses : list float) : list float :=
  match lapses with
  | [] => [t]
  | x :: xs => t :: running_sums (t + x)%float xs
  end.

(** *** Accumulation of states *)

Lemma aggregate_item_lookup k v (states : gmap string Tensor) k' :
  aggregate_item k v states !! k' =
  if decide (k = k')
  then Some (iadd (default (zeros_like v) (states !! k)) v)
  else states !! k'.
Proof.
  unfold aggregate_item. destruct (decide (k = k')) as [<-|Hne].
  - rewrite lookup_alter_eq. destruct (states !! k) as [s|] eqn:Hk.
    + by rewrite Hk.
    + by rewrite lookup_insert_eq.
  - rewrite lookup_alter_ne by done. destruct (states !! k); [done|].
    by rewrite lookup_insert_ne.
Qed.

Lemma aggregate_lookup (states new_states : gmap string Tensor) k :
  _aggregate states new_states !! k =
  match new_states !! k with
  | Some v => Some (iadd (default (zeros_like v) (states !! k)) v)
  | None => states !! k
  end.
Proof.
  unfold _aggregate. revert k.
  apply (map_fold_weak_ind
           (λ r (m : gmap string Tensor), ∀ k,
              r !! k = match m !! k with
                       | Some v => Some (iadd (default (zeros_like v) (states !! k)) v)
                       | None => states !! k
                       end)).
  - intros k. by rewrite lookup_empty.
  - intros i x m r Hi IH k. rewrite aggregate_item_lookup, lookup_insert.
    destruct (decide (i = k)) as [<-|Hne]; [|apply IH].
    by rewrite (IH i), Hi.
Qed.

Lemma aggregate_empty (states : gmap string Tensor) : _aggregate states ∅ = states.
Proof. apply map_eq. intros k. by rewrite aggregate_lookup, lookup_empty. Qed.

(** The running value of one state name [k] after accumulating the mappings
    of [steps] into [states], from left to right. *)
Definition accumulated (states : gmap string Tensor) (steps : list (gmap string Tensor))
    (k : string) : option Tensor :=
  match states !! k, omap (λ st : gmap string Tensor, st !! k) steps with
  | Some s, vs => Some (foldl iadd s vs)
  | None, v :: vs => Some (foldl iadd (zeros_like v) (v :: vs))
  | None, [] => None
  end.

Lemma foldl_aggregate_lookup (steps : list (gmap string Tensor)) :
  ∀ (states : gmap string Tensor) k,
    foldl _aggregate states steps !! k = accumulated states steps k.
Proof.
  unfold accumulated.
  induction steps as [|st steps IH]; intros states k; simpl.
  - by destruct (states !! k).
  - rewrite IH, aggregate_lookup.
    destruct (st !! k) as [v|] eqn:Hv; simpl; [|done].
    by destruct (states !! k).
Qed.

(** C4: [_aggregate] is pointwise summation per named state: every key of
    [new_states] maps afterwards to its previous value (zeros when absent)
    plus the new value, the other keys are unchanged; accumulating a
    sequence of mappings from the empty mapping gives, for each state name,
    the sum (from zeros) of the values of the steps that supplied it, and no
    entry when no step supplied it. *)
Theorem aggregate_pointwise_sum (states new_states : gmap string Tensor)
    (steps : list (gmap string Tensor)) (k : string) :
  _aggregate states new_states !! k =
    match new_states !! k with
    | Some v => Some (iadd (default (zeros_like v) (states !! k)) v)
    | None => states !! k
    end ∧
  foldl _aggregate ∅ steps !! k =
    match omap (λ st : gmap string Tensor, st !! k) steps with
    | v :: vs => Some (foldl iadd (zeros_like v) (v :: vs))
    | [] => None
    end.
Proof.
  split; [apply aggregate_lookup|].
  rewrite foldl_aggregate_lookup. unfold accumulated. by rewrite lookup_empty.
Qed.

(** *** The loops of [compute] *)

Lemma task_step_states tm nsteps batch_window_size i model_out aggregated acc task_info :
  task_step tm nsteps batch_window_size i model_out aggregated acc task_info =
  let* ev := task_states tm i model_out aggregated task_info in
  ok (apply_states tm nsteps batch_window_size acc ev).
Proof.
  unfold task_step, task_states, apply_states, bind.
  repeat (destruct (getitem _ _); simpl; [done|]). done.
Qed.

Lemma foldlM_mapM {A B E} (f : A → Result E) (g : B → E → B) (l : list A) :
  ∀ b, foldlM (λ b a, let* e := f a in ok (g b e)) b l =
       let* es := mapM f l in ok (foldl g b es).
Proof.
  induction l as [|a l IH]; intros b; simpl; [done|].
  unfold bind at 1 3. destruct (f a) as [err|e]; simpl; [done|].
  rewrite IH. unfold bind. by destruct (mapM f l).
Qed.

Lemma foldlM_ext {A B} (f f' : B → A → Result B) (l : list A) :
  (∀ b a, f b a = f' b a) → ∀ b, foldlM f b l = foldlM f' b l.
Proof.
  intros Hext. induction l as [|a l IH]; intros b; simpl; [done|].
  rewrite Hext. unfold bind. destruct (f' b a); [done|]. apply IH.
Qed.

Lemma compute_loop_states tm model_outs nsteps batch_window_size steps :
  ∀ aggregated acc,
    (let* st := foldlM (compute_step tm model_outs nsteps batch_window_size)
                       (aggregated, acc) steps in
     ok (snd st)) =
    (let* evs := step_states tm model_outs steps aggregated in
     ok (foldl (apply_states tm nsteps batch_window_size) acc evs)).
Proof.
  induction steps as [|i steps IH]; intros aggregated acc; simpl; [done|].
  unfold compute_step at 1. simpl.
  unfold bind at 2 3 5. destruct (list_getitem model_outs i) as [err|model_out]; [done|].
  rewrite (foldlM_ext _ _ _ (task_step_states tm nsteps batch_window_size i model_out _)).
  rewrite foldlM_mapM.
  unfold bind at 3 4 6. destruct (mapM _ (_rec_tasks tm)) as [err|evs]; [done|].
  simpl. rewrite IH. unfold bind.
  destruct (step_states tm model_outs steps _) as [err|rest]; [done|].
  unfold ok. by rewrite foldl_app.
Qed.

Lemma compute_states_step_states tm model_outs nsteps batch_window_size :
  compute_states tm model_outs nsteps batch_window_size =
  let* evs := step_states tm model_outs (range nsteps) ∅ in
  ok (foldl (apply_states tm nsteps batch_window_size)
            (init_accumulators (_rec_tasks tm)) evs).
Proof. unfold compute_states. apply compute_loop_states. Qed.

Lemma mapM_task_states_step tm i model_out aggregated tasks :
  ∀ evs, mapM (task_states tm i model_out aggregated) tasks = ok evs →
         Forall (λ ev, ev_step ev = i) evs.
Proof.
  induction tasks as [|task_info tasks IH]; intros evs; simpl.
  - intros [= <-]. constructor.
  - unfold bind at 1.
    destruct (task_states tm i model_out aggregated task_info) as [err|ev] eqn:Hev;
      [done|].
    unfold bind. destruct (mapM _ tasks) as [err|evs'] eqn:Hevs; [done|].
    intros [= <-]. constructor; [|by apply IH].
    unfold task_states, bind in Hev.
    repeat (destruct (getitem _ _); [done|]). by injection Hev as <-.
Qed.

Lemma step_states_steps tm model_outs steps :
  ∀ aggregated evs,
    step_states tm model_outs steps aggregated = ok evs →
    Forall (λ ev, ev_step ev ∈ steps) evs.
Proof.
  induction steps as [|i steps IH]; intros aggregated evs; simpl.
  - intros [= <-]. constructor.
  - unfold bind at 1. destruct (list_getitem model_outs i) as [err|model_out]; [done|].
    unfold bind at 1. destruct (mapM _ (_rec_tasks tm)) as [err|evs1] eqn:Hevs1; [done|].
    unfold bind. destruct (step_states tm model_outs steps _) as [err|rest] eqn:Hrest;
      [done|].
    intros [= <-]. apply Forall_app. split.
    + eapply Forall_impl; [by eapply mapM_task_states_step|].
      intros ev ->. apply list_elem_of_here.
    + eapply Forall_impl; [by eapply IH|].
      intros ev Hev. by apply list_elem_of_further.
Qed.

Lemma apply_states_accumulators tm nsteps batch_window_size evs :
  ∀ acc,
    foldl (apply_states tm nsteps batch_window_size) acc evs =
    {| lifetime_states :=
         accumulate_guarded ev_states (λ _, _compute_lifetime_metric tm)
           (lifetime_states acc) evs;
       window_states :=
         accumulate_guarded ev_states (window_guard tm nsteps batch_window_size)
           (window_states acc) evs;
       local_lifetime_states :=
         accumulate_guarded ev_local_states (λ _, _local_compute_lifetime_metric tm)
           (local_lifetime_states acc) evs;
       local_window_states :=
         accumulate_guarded ev_local_states
           (local_window_guard tm nsteps batch_window_size)
           (local_window_states acc) evs |}.
Proof.
  induction evs as [|ev evs IH]; intros acc; simpl.
  - by destruct acc.
  - by rewrite IH.
Qed.

Lemma accumulate_guarded_lookup sel G evs :
  ∀ acc n,
    accumulate_guarded sel G acc evs !! n =
    (λ st, foldl _aggregate st
             (sel <$> filter (λ ev, ev_task ev = n ∧ G (ev_step ev) = true) evs))
      <$> acc !! n.
Proof.
  unfold accumulate_guarded.
  induction evs as [|ev evs IH]; intros acc n; simpl.
  - by destruct (acc !! n).
  - rewrite IH, filter_cons. destruct (G (ev_step ev)) eqn:HG.
    + unfold aggregate_into. destruct (decide (ev_task ev = n)) as [Heq|Hne].
      * rewrite decide_True by done. subst n. rewrite lookup_alter_eq.
        by destruct (acc !! ev_task ev).
      * rewrite decide_False by (intros [? _]; done).
        by rewrite lookup_alter_ne.
    + by rewrite decide_False by (intros [_ ?]; done).
Qed.

Lemma empty_states_lookup tasks n :
  empty_states tasks !! n = if decide (n ∈ name <$> tasks) then Some ∅ else None.
Proof.
  unfold empty_states.
  induction tasks as [|task_info tasks IH] using rev_ind.
  - rewrite decide_False by apply not_elem_of_nil. apply lookup_empty.
  - rewrite foldl_app, fmap_app. simpl. rewrite lookup_insert, IH.
    destruct (decide (name task_info = n)) as [<-|Hne].
    + rewrite decide_True; [done|]. apply elem_of_app. right. apply list_elem_of_here.
    + destruct (decide (n ∈ name <$> tasks)) as [Hin|Hnin].
      * rewrite decide_True; [done|]. apply elem_of_app. by left.
      * rewrite decide_False; [done|]. rewrite elem_of_app, list_elem_of_singleton.
        intros [?|?]; done.
Qed.

Lemma per_task_lookup {V} tasks (f : string → V) n :
  per_task tasks f !! n = if decide (n ∈ name <$> tasks) then Some (f n) else None.
Proof.
  unfold per_task. induction tasks as [|task_info tasks IH].
  - rewrite decide_False by apply not_elem_of_nil. apply lookup_empty.
  - rewrite fmap_cons, list_to_map_cons, fmap_cons. simpl. rewrite lookup_insert, IH.
    destruct (decide (name task_info = n)) as [<-|Hne].
    + rewrite decide_True; [done|]. apply list_elem_of_here.
    + destruct (decide (n ∈ name <$> tasks)) as [Hin|Hnin].
      * rewrite decide_True; [done|]. by apply list_elem_of_further.
      * rewrite decide_False; [done|]. rewrite elem_of_cons. intros [?|?]; done.
Qed.

Lemma per_task_ext {V} tasks (f g : string → V) :
  (∀ n, n ∈ name <$> tasks → f n = g n) → per_task tasks f = per_task tasks g.
Proof.
  intros Hext. apply map_eq. intros n. rewrite !per_task_lookup.
  destruct (decide (n ∈ name <$> tasks)); [|done]. by rewrite Hext.
Qed.

Lemma foldl_insert_per_task {V} tasks (f : string → V) :
  foldl (λ m task_info, <[name task_info := f (name task_info)]> m) ∅ tasks =
  per_task tasks f.
Proof.
  apply map_eq. intros n. rewrite per_task_lookup.
  induction tasks as [|task_info tasks IH] using rev_ind.
  - rewrite decide_False by apply not_elem_of_nil. apply lookup_empty.
  - rewrite foldl_app, fmap_app. simpl. rewrite lookup_insert, IH.
    destruct (decide (name task_info = n)) as [<-|Hne].
    + rewrite decide_True; [done|]. apply elem_of_app. right. apply list_elem_of_here.
    + destruct (decide (n ∈ name <$> tasks)) as [Hin|Hnin].
      * rewrite decide_True; [done|]. apply elem_of_app. by left.
      * rewrite decide_False; [done|]. rewrite elem_of_app, list_elem_of_singleton.
        intros [?|?]; done.
Qed.

Lemma empty_states_per_task tasks :
  empty_states tasks = per_task tasks (λ _, ∅).
Proof. apply (foldl_insert_per_task tasks (λ _, (∅ : gmap string Tensor))). Qed.

Lemma filter_ext_Forall {A} (P Q : A → Prop) `{∀ x, Decision (P x)}
    `{∀ x, Decision (Q x)} (l : list A) :
  Forall (λ x, P x ↔ Q x) l → filter P l = filter Q l.
Proof.
  induction 1 as [|x l Hx Hl IH]; [done|].
  rewrite !filter_cons, IH.
  destruct (decide (P x)) as [HP|HP], (decide (Q x)) as [HQ|HQ];
    try done; exfalso; tauto.
Qed.

Lemma filter_nothing {A} (l : list A) : filter (λ _, False) l = [].
Proof.
  induction l as [|x l IH]; [done|]. by rewrite filter_cons_False by tauto.
Qed.

(** Inside the loop range the guard [nsteps - batch_window_size <= i] is
    membership in the trailing window. *)
Lemma trailing_in_range nsteps batch_window_size (i : nat) :
  i ∈ range nsteps →
  bool_decide (nsteps - batch_window_size ≤ Z.of_nat i) = trailing nsteps batch_window_size i.
Proof.
  unfold range, trailing. rewrite elem_of_seq. intros [_ Hi].
  apply bool_decide_ext. lia.
Qed.

Lemma accumulate_guarded_states_map tm sel G P flag evs :
  Forall (λ ev, G (ev_step ev) = flag && P (ev_step ev)) evs →
  accumulate_guarded sel G (empty_states (_rec_tasks tm)) evs =
  states_map tm flag (task_accumulation sel P evs).
Proof.
  intros HG. apply map_eq. intros n.
  rewrite accumulate_guarded_lookup, empty_states_lookup.
  unfold states_map. rewrite per_task_lookup.
  destruct (decide (n ∈ name <$> _rec_tasks tm)); [simpl|done]. f_equal.
  unfold task_accumulation. destruct flag.
  - f_equal. f_equal. apply filter_ext_Forall.
    eapply Forall_impl; [exact HG|]. intros ev ->. done.
  - rewrite (filter_ext_Forall _ (λ _, False)).
    + by rewrite filter_nothing.
    + eapply Forall_impl; [exact HG|]. intros ev ->. simpl.
      split; [intros [_ ?]; done|done].
Qed.

(** The accumulators after the first loop: each is, per task name, the sum
    of the states of that task over all steps (lifetime) or over the steps
    of the trailing window (window), and empty when its flag is disabled. *)
Lemma compute_states_accumulations tm model_outs nsteps batch_window_size :
  compute_states tm model_outs nsteps batch_window_size =
  let* evs := step_states tm model_outs (range nsteps) ∅ in
  ok {| lifetime_states :=
          states_map tm (_compute_lifetime_metric tm)
            (task_accumulation ev_states every_step evs);
        window_states :=
          states_map tm (_compute_window_metric tm)
            (task_accumulation ev_states (trailing nsteps batch_window_size) evs);
        local_lifetime_states :=
          states_map tm (_local_compute_lifetime_metric tm)
            (task_accumulation ev_local_states every_step evs);
        local_window_states :=
          states_map tm (_local_compute_window_metric tm)
            (task_accumulation ev_local_states (trailing nsteps batch_window_size) evs) |}.
Proof.
  rewrite compute_states_step_states. unfold bind.
  destruct (step_states tm model_outs (range nsteps) ∅) as [err|evs] eqn:Hevs; [done|].
  apply step_states_steps in Hevs.
  rewrite apply_states_accumulators. unfold init_accumulators. simpl.
  f_equal. f_equal; apply accumulate_guarded_states_map.
  - apply Forall_true. intros ev. unfold every_step. by rewrite andb_true_r.
  - eapply Forall_impl; [exact Hevs|]. intros ev Hev. unfold window_guard.
    by rewrite trailing_in_range.
  - apply Forall_true. intros ev. unfold every_step. by rewrite andb_true_r.
  - eapply Forall_impl; [exact Hevs|]. intros ev Hev. unfold local_window_guard.
    by rewrite trailing_in_range.
Qed.

Lemma foldl_quadruple {A B1 B2 B3 B4} (f1 : B1 → A → B1) (f2 : B2 → A → B2)
    (f3 : B3 → A → B3) (f4 : B4 → A → B4) (l : list A) :
  ∀ b1 b2 b3 b4,
    foldl (λ '(x1, x2, x3, x4) a, (f1 x1 a, f2 x2 a, f3 x3 a, f4 x4 a))
          (b1, b2, b3, b4) l =
    (foldl f1 b1 l, foldl f2 b2 l, foldl f3 b3 l, foldl f4 b4 l).
Proof. induction l as [|a l IH]; intros; simpl; [done|apply IH]. Qed.

Lemma compute_metrics_per_task tm acc :
  compute_metrics tm acc =
  (per_task (_rec_tasks tm)
     (λ n, if _compute_lifetime_metric tm
           then _compute (clazz tm) (lifetime_states acc !!! n) else scalar 0.0%float),
   per_task (_rec_tasks tm)
     (λ n, if _compute_window_metric tm
           then _compute (clazz tm) (window_states acc !!! n) else scalar 0.0%float),
   per_task (_rec_tasks tm)
     (λ n, if _local_compute_lifetime_metric tm
           then _compute (clazz tm) (local_lifetime_states acc !!! n)
           else scalar 0.0%float),
   per_task (_rec_tasks tm)
     (λ n, if _local_compute_window_metric tm
           then _compute (clazz tm) (local_window_states acc !!! n)
           else scalar 0.0%float)).
Proof.
  unfold compute_metrics, metric_value.
  rewrite (foldl_quadruple
             (λ m t, <[name t := if _compute_lifetime_metric tm
                                 then _compute (clazz tm) (lifetime_states acc !!! name t)
                                 else scalar 0.0%float]> m)
             (λ m t, <[name t := if _compute_window_metric tm
                                 then _compute (clazz tm) (window_states acc !!! name t)
                                 else scalar 0.0%float]> m)
             (λ m t, <[name t := if _local_compute_lifetime_metric tm
                                 then _compute (clazz tm)
                                        (local_lifetime_states acc !!! name t)
                                 else scalar 0.0%float]> m)
             (λ m t, <[name t := if _local_compute_window_metric tm
                                 then _compute (clazz tm)
                                        (local_window_states acc !!! name t)
                                 else scalar 0.0%float]> m)).
  repeat f_equal.
  - apply (foldl_insert_per_task (_rec_tasks tm)
             (λ n, if _compute_lifetime_metric tm
                   then _compute (clazz tm) (lifetime_states acc !!! n)
                   else scalar 0.0%float)).
  - apply (foldl_insert_per_task (_rec_tasks tm)
             (λ n, if _compute_window_metric tm
                   then _compute (clazz tm) (window_states acc !!! n)
                   else scalar 0.0%float)).
  - apply (foldl_insert_per_task (_rec_tasks tm)
             (λ n, if _local_compute_lifetime_metric tm
                   then _compute (clazz tm) (local_lifetime_states acc !!! n)
                   else scalar 0.0%float)).
  - apply (foldl_insert_per_task (_rec_tasks tm)
             (λ n, if _local_compute_window_metric tm
                   then _compute (clazz tm) (local_window_states acc !!! n)
                   else scalar 0.0%float)).
Qed.

Lemma states_map_metrics tm (flag : bool) f :
  per_task (_rec_tasks tm)
    (λ n, if flag then _compute (clazz tm) (states_map tm flag f !!! n)
          else scalar 0.0%float) =
  task_metrics tm flag f.
Proof.
  unfold task_metrics. apply per_task_ext. intros n Hn.
  destruct flag; [|done]. f_equal.
  rewrite lookup_total_alt. unfold states_map.
  by rewrite per_task_lookup, decide_True.
Qed.

(** The steps of the loop at which [G] holds, as a subsequence of
    [range(nsteps)]. *)
Lemma filter_seq_ge (lo n : nat) :
  filter (λ i : nat, (lo ≤ i)%nat) (seq 0 n) = seq lo (n - lo).
Proof.
  induction n as [|n IH]; [done|].
  rewrite seq_S, filter_app, IH, filter_cons, filter_nil. simpl.
  destruct (decide (lo ≤ n)%nat) as [Hle|Hgt].
  - replace (S n - lo)%nat with (S (n - lo)) by lia.
    rewrite seq_S. by replace (lo + (n - lo))%nat with n by lia.
  - replace (S n - lo)%nat with 0%nat by lia.
    replace (n - lo)%nat with 0%nat by lia. done.
Qed.

Lemma window_guard_steps (nsteps batch_window_size : Z) :
  filter (λ i : nat, bool_decide (nsteps - batch_window_size ≤ Z.of_nat i) = true)
         (range nsteps) =
  seq (Z.to_nat (Z.max 0 (nsteps - batch_window_size)))
      (Z.to_nat (nsteps - Z.max 0 (nsteps - batch_window_size))).
Proof.
  unfold range.
  replace (Z.to_nat (nsteps - Z.max 0 (nsteps - batch_window_size)))
    with (Z.to_nat nsteps - Z.to_nat (Z.max 0 (nsteps - batch_window_size)))%nat by lia.
  rewrite <- filter_seq_ge. apply list_filter_iff. intros i.
  rewrite bool_decide_eq_true. lia.
Qed.

Lemma gather_step_lookup world_size i (model_out aggregated : gmap string Tensor) k :
  gather_step world_size i model_out aggregated !! k =
  match model_out !! k with
  | Some v =>
      Some (torch_cat
              (dist_all_gather i k (replicate (Z.to_nat world_size) (zeros_like v)) v))
  | None => aggregated !! k
  end.
Proof.
  unfold gather_step. revert k.
  apply (map_fold_weak_ind
           (λ r (m : gmap string Tensor), ∀ k,
              r !! k =
              match m !! k with
              | Some v =>
                  Some (torch_cat
                          (dist_all_gather i k
                             (replicate (Z.to_nat world_size) (zeros_like v)) v))
              | None => aggregated !! k
              end)).
  - intros k. by rewrite lookup_empty.
  - intros j x m r Hj IH k. rewrite !lookup_insert.
    destruct (decide (j = k)) as [<-|Hne]; [done|apply IH].
Qed.

(** *** Properties of the reference aggregator *)

(** C1 (amended): with the window flag enabled, the steps of
    [range(nsteps)] at which [compute] accumulates into [window_states]
    (resp. [local_window_states]) are exactly those of
    [[max(0, nsteps - batch_window_size), nsteps)], i.e. those with
    [nsteps - batch_window_size <= i]; with the flag disabled no step is
    accumulated.  Accordingly each windowed accumulator holds, per task, the
    sum of the states of the steps of that interval (and is empty when its
    flag is disabled). *)
Theorem window_accumulation_trailing_steps tm model_outs nsteps batch_window_size :
  filter (λ i, window_guard tm nsteps batch_window_size i = true) (range nsteps) =
    (if _compute_window_metric tm
     then seq (Z.to_nat (Z.max 0 (nsteps - batch_window_size)))
              (Z.to_nat (nsteps - Z.max 0 (nsteps - batch_window_size)))
     else []) ∧
  filter (λ i, local_window_guard tm nsteps batch_window_size i = true) (range nsteps) =
    (if _local_compute_window_metric tm
     then seq (Z.to_nat (Z.max 0 (nsteps - batch_window_size)))
              (Z.to_nat (nsteps - Z.max 0 (nsteps - batch_window_size)))
     else []) ∧
  (let* acc := compute_states tm model_outs nsteps batch_window_size in
   ok (window_states acc, local_window_states acc)) =
  (let* evs := step_states tm model_outs (range nsteps) ∅ in
   ok (states_map tm (_compute_window_metric tm)
         (task_accumulation ev_states (trailing nsteps batch_window_size) evs),
       states_map tm (_local_compute_window_metric tm)
         (task_accumulation ev_local_states (trailing nsteps batch_window_size) evs))).
Proof.
  unfold window_guard, local_window_guard. repeat split.
  - destruct (_compute_window_metric tm); simpl.
    + apply window_guard_steps.
    + rewrite (list_filter_iff _ (λ _, False)) by done. apply filter_nothing.
  - destruct (_local_compute_window_metric tm); simpl.
    + apply window_guard_steps.
    + rewrite (list_filter_iff _ (λ _, False)) by done. apply filter_nothing.
  - rewrite compute_states_accumulations. unfold bind.
    by destruct (step_states tm model_outs (range nsteps) ∅).
Qed.

(** C5: [compute] returns, in the order (lifetime, window, local lifetime,
    local window), one value per task name: [_compute] of the sum of the
    task's states over all steps or over the trailing steps, the global ones
    from the states of the all-ranks view, the local ones from the states of
    the rank's own tensors; a disabled flag gives [torch.tensor(0.0)].  The
    all-ranks view of a step holds, for every key of the step's output, the
    concatenation of the tensors gathered from [world_size] ranks. *)
Theorem compute_four_accumulations tm model_outs nsteps batch_window_size timestamps :
  compute tm model_outs nsteps batch_window_size timestamps =
  (let* evs := step_states tm model_outs (range nsteps) ∅ in
   ok (task_metrics tm (_compute_lifetime_metric tm)
         (task_accumulation ev_states every_step evs),
       task_metrics tm (_compute_window_metric tm)
         (task_accumulation ev_states (trailing nsteps batch_window_size) evs),
       task_metrics tm (_local_compute_lifetime_metric tm)
         (task_accumulation ev_local_states every_step evs),
       task_metrics tm (_local_compute_window_metric tm)
         (task_accumulation ev_local_states (trailing nsteps batch_window_size) evs))) ∧
  (∀ i model_out aggregated k,
     gather_step (world_size tm) i model_out aggregated !! k =
     match model_out !! k with
     | Some v =>
         Some (torch_cat
                 (dist_all_gather i k
                    (replicate (Z.to_nat (world_size tm)) (zeros_like v)) v))
     | None => aggregated !! k
     end).
Proof.
  split; [|intros; apply gather_step_lookup].
  unfold compute. rewrite compute_states_accumulations. unfold bind.
  destruct (step_states tm model_outs (range nsteps) ∅) as [err|evs]; [done|].
  unfold ok. cbv beta iota.
  rewrite compute_metrics_per_task. simpl.
  by rewrite !states_map_metrics.
Qed.

(** C9: the result of [compute], and of [get_test_rec_metric_value] which
    forwards its [timestamps] to it, does not depend on [timestamps]. *)
Theorem compute_ignores_timestamps tm model_outs nsteps batch_window_size
    (timestamps timestamps' : option (list float)) :
  compute tm model_outs nsteps batch_window_size timestamps =
  compute tm model_outs nsteps batch_window_size timestamps' ∧
  (∀ test_clazz world_size tasks,
     get_test_rec_metric_value test_clazz world_size nsteps batch_window_size
       model_outs tasks timestamps =
     get_test_rec_metric_value test_clazz world_size nsteps batch_window_size
       model_outs tasks timestamps').
Proof.
  split; [reflexivity|]. intros test_clazz ws tasks.
  unfold get_test_rec_metric_value. by destruct test_clazz.
Qed.

(** C2: the value-test helper passes
    [world_size * batch_size * batch_window_size] as [window_size]; the
    sync helper passes [batch_window_size * world_size], which for two ranks
    and the default sizes is 10 and not 320. *)
Theorem target_window_size :
  (∀ target_compute_mode fused_update_limit compute_on_all_ranks should_validate_update
     world_size my_rank batch_size batch_window_size n_classes zero_weights tasks kwargs,
     arg_window_size
       (get_target_rec_metric_value_args target_compute_mode fused_update_limit
          compute_on_all_ranks should_validate_update world_size my_rank batch_size
          batch_window_size n_classes zero_weights tasks kwargs) =
     world_size * batch_size * batch_window_size) ∧
  (∀ compute_on_all_ranks world_size rank batch_size batch_window_size n_classes
     tasks kwargs,
     arg_window_size
       (sync_test_helper_args compute_on_all_ranks world_size rank batch_size
          batch_window_size n_classes tasks kwargs) =
     batch_window_size * world_size) ∧
  (∀ compute_on_all_ranks rank tasks kwargs,
     arg_window_size
       (sync_test_helper_args compute_on_all_ranks 2 rank BATCH_SIZE BATCH_WINDOW_SIZE
          None tasks kwargs) = 10 ∧
     2 * BATCH_SIZE * BATCH_WINDOW_SIZE = 320).
Proof. by repeat split. Qed.

Lemma gen_task_batches_seeded args seed tasks g g' :
  tasks ≠ [] →
  gen_task_batches args (Some seed) tasks g = gen_task_batches args (Some seed) tasks g'.
Proof. destruct tasks as [|task tasks]; [done|]. intros _. reflexivity. Qed.

Lemma sync_model_outs_seeded batch_size n_classes tasks g g' :
  (let* '(model_outs, _) := sync_model_outs batch_size n_classes tasks g in ok model_outs) =
  (let* '(model_outs, _) := sync_model_outs batch_size n_classes tasks g' in ok model_outs).
Proof.
  unfold sync_model_outs. destruct tasks as [|task tasks]; [done|].
  by rewrite (gen_task_batches_seeded _ _ _ g g').
Qed.

(** C6: with a seed, [gen_test_batch] returns the same batch (and leaves the
    same generator state) whatever the generator state before the call; so
    a seeded batch sequence and the reference values computed from it are the
    same in every run. *)
Theorem gen_test_batch_seeded_deterministic (a : BatchArgs) (seed : Z) (g g' : RngState) :
  gen_test_batch a (Some seed) g = gen_test_batch a (Some seed) g' ∧
  (∀ args tasks,
     (let* '(batches, _) := gen_task_batches args (Some seed) tasks g in ok batches) =
     (let* '(batches, _) := gen_task_batches args (Some seed) tasks g' in ok batches)) ∧
  (∀ test_clazz world_size batch_size batch_window_size n_classes tasks,
     (let* '(model_outs, _) := sync_model_outs batch_size n_classes tasks g in
      sync_test_metrics test_clazz world_size batch_window_size tasks model_outs) =
     (let* '(model_outs, _) := sync_model_outs batch_size n_classes tasks g' in
      sync_test_metrics test_clazz world_size batch_window_size tasks model_outs)).
Proof.
  split; [reflexivity|]. split.
  - intros args tasks. destruct tasks as [|task tasks]; [done|].
    by rewrite (gen_task_batches_seeded _ _ _ g g').
  - intros test_clazz ws bs bws ncls tasks.
    pose proof (sync_model_outs_seeded bs ncls tasks g g') as Heq.
    unfold bind in *.
    destruct (sync_model_outs bs ncls tasks g) as [e|[outs g1]],
             (sync_model_outs bs ncls tasks g') as [e'|[outs' g1']];
      simplify_eq; done.
Qed.

(** *** The sync test *)

(** From [bind r k = ok b] to [r = ok a] and [k a = ok b]. *)
Lemma bind_ok {A B} (r : Result A) (k : A → Result B) (b : B) :
  bind r k = ok b → ∃ a, r = ok a ∧ k a = ok b.
Proof. destruct r as [e|a]; [done|]. intros H. by exists a. Qed.

Ltac bind_inv H :=
  let a := fresh "a" in
  let Ha := fresh "Ha" in
  apply bind_ok in H as (a & Ha & H).

Lemma update_once_log tasks model_out required_inputs_list st st' :
  update_once tasks model_out required_inputs_list st = ok st' →
  ∃ l p w r,
    parse_task_model_outputs tasks model_out required_inputs_list = ok (l, p, w, r) ∧
    snd st' = snd st ++ [Update p l w r].
Proof.
  unfold update_once. intros H. bind_inv H. destruct a as [[[l p] w] r].
  bind_inv H. injection H as <-. by exists l, p, w, r.
Qed.

Lemma update_loop_log tasks model_out required_inputs_list l p w r (steps : list nat) :
  parse_task_model_outputs tasks model_out required_inputs_list = ok (l, p, w, r) →
  ∀ st st',
    foldlM (λ st _, update_once tasks model_out required_inputs_list st) st steps = ok st' →
    snd st' = snd st ++ replicate (length steps) (Update p l w r).
Proof.
  intros Hparse. induction steps as [|i steps IH]; intros st st' H; simpl in *.
  - injection H as <-. by rewrite app_nil_r.
  - bind_inv H. apply IH in H. rewrite H.
    apply update_once_log in Ha as (l' & p' & w' & r' & Hparse' & ->).
    rewrite Hparse in Hparse'. injection Hparse' as <- <- <- <-.
    by rewrite <- app_assoc.
Qed.

Lemma update_times_log n tasks model_out required_inputs_list st st' :
  0 < n →
  update_times n tasks model_out required_inputs_list st = ok st' →
  ∃ l p w r,
    parse_task_model_outputs tasks model_out required_inputs_list = ok (l, p, w, r) ∧
    snd st' = snd st ++ replicate (Z.to_nat n) (Update p l w r).
Proof.
  intros Hn H. unfold update_times, range in H.
  assert (∃ l p w r,
            parse_task_model_outputs tasks model_out required_inputs_list =
            ok (l, p, w, r)) as (l & p & w & r & Hparse).
  { destruct (Z.to_nat n) as [|k] eqn:Hk; [lia|]. simpl in H. bind_inv H.
    apply update_once_log in Ha as (l & p & w & r & Hparse & _).
    by exists l, p, w, r. }
  exists l, p, w, r. split; [done|].
  erewrite update_loop_log; [|done..]. by rewrite length_seq.
Qed.

Lemma compute_and_check_rank0 metric_name task_names test_metrics st st' :
  compute_and_check 0 metric_name task_names test_metrics st = ok st' →
  ∃ res task0 expected actual,
    task_names !! 0%nat = Some task0 ∧
    test_metrics.1.1.2 !! task0 = Some expected ∧
    res !! window_key metric_name task0 = Some actual ∧
    allclose expected actual = true ∧
    snd st' = snd st ++ [Compute res; AssertAllclose expected actual].
Proof.
  unfold compute_and_check. intros H. bind_inv H. destruct a as [res target].
  rewrite decide_True in H by done.
  bind_inv H. bind_inv H. bind_inv H.
  unfold list_getitem in Ha0. destruct (task_names !! 0%nat) as [task0|] eqn:Ht; [|done].
  injection Ha0 as <-.
  unfold getitem in Ha1, Ha2.
  destruct (test_metrics.1.1.2 !! task0) as [expected|] eqn:He; [|done].
  destruct (res !! window_key metric_name task0) as [actual|] eqn:Hr; [|done].
  injection Ha1 as <-. injection Ha2 as <-.
  destruct (allclose expected actual) eqn:Hclose; [|done].
  injection H as <-. exists res, task0, expected, actual.
  by rewrite <- app_assoc.
Qed.

Lemma compute_and_check_other rank metric_name task_names test_metrics st st' :
  rank ≠ 0 →
  compute_and_check rank metric_name task_names test_metrics st = ok st' →
  ∃ res, snd st' = snd st ++ [Compute res].
Proof.
  unfold compute_and_check. intros Hrank H. bind_inv H. destruct a as [res target].
  rewrite decide_False in H by done. injection H as <-. by exists res.
Qed.

(** C7: when the sync test runs to its end, rank 0 has sent three updates,
    called [compute], compared the window value of the first task with the
    reference window value, called [reset], sent one update, called
    [compute] and compared again; rank 1 has sent one update before the
    [reset] and three after it, with a [compute] in each phase and no
    comparison. *)
Theorem sync_test_helper_updates world_size test_clazz task_names metric_name
    compute_on_all_ranks batch_size batch_window_size n_classes kwargs g log g' :
  (sync_test_helper 0 world_size test_clazz task_names metric_name compute_on_all_ranks
     batch_size batch_window_size n_classes kwargs g = ok (log, g') →
   ∃ l p w r res1 res2 expected actual1 actual2 task0 cls model_outs g1 test_metrics,
     log =
       [ InitProcessGroup world_size 0;
         Construct (sync_test_helper_args compute_on_all_ranks world_size 0 batch_size
                      batch_window_size n_classes (gen_test_tasks task_names) kwargs);
         Update p l w r; Update p l w r; Update p l w r;
         Compute res1; AssertAllclose expected actual1;
         Reset;
         Update p l w r;
         Compute res2; AssertAllclose expected actual2;
         DestroyProcessGroup ] ∧
     task_names !! 0%nat = Some task0 ∧
     test_clazz = Some cls ∧
     sync_model_outs batch_size n_classes (gen_test_tasks task_names) g =
       ok (model_outs, g1) ∧
     compute (TestMetric_init cls world_size (gen_test_tasks task_names))
       (model_outs ++ model_outs) 2 batch_window_size None = ok test_metrics ∧
     test_metrics.1.1.2 !! task0 = Some expected ∧
     res1 !! window_key metric_name task0 = Some actual1 ∧
     res2 !! window_key metric_name task0 = Some actual2 ∧
     allclose expected actual1 = true ∧
     allclose expected actual2 = true) ∧
  (sync_test_helper 1 world_size test_clazz task_names metric_name compute_on_all_ranks
     batch_size batch_window_size n_classes kwargs g = ok (log, g') →
   ∃ l p w r res1 res2,
     log =
       [ InitProcessGroup world_size 1;
         Construct (sync_test_helper_args compute_on_all_ranks world_size 1 batch_size
                      batch_window_size n_classes (gen_test_tasks task_names) kwargs);
         Update p l w r;
         Compute res1;
         Reset;
         Update p l w r; Update p l w r; Update p l w r;
         Compute res2;
         DestroyProcessGroup ]).
Proof.
  split; intros H; unfold sync_test_helper in H.
  - bind_inv H. bind_inv H. destruct a0 as [model_outs g1].
    bind_inv H. bind_inv H. bind_inv H. bind_inv H. bind_inv H. bind_inv H. bind_inv H.
    injection H as <- <-.
    rewrite decide_True in Ha2, Ha6 by done.
    apply update_times_log in Ha2 as (l & p & w & r & Hparse & Hlog1); [|done].
    apply update_times_log in Ha6 as (l' & p' & w' & r' & Hparse' & Hlog2); [|done].
    rewrite Hparse in Hparse'. injection Hparse' as <- <- <- <-.
    apply compute_and_check_rank0 in Ha4
      as (res1 & task0 & expected & actual1 & Htask & Hexp & Hact1 & Hclose1 & Hlog3).
    apply compute_and_check_rank0 in Ha7
      as (res2 & task0' & expected' & actual2 & Htask' & Hexp' & Hact2 & Hclose2 & Hlog4).
    rewrite Htask in Htask'. injection Htask' as <-.
    rewrite Hexp in Hexp'. injection Hexp' as <-.
    unfold sync_test_metrics in Ha3. destruct test_clazz as [cls|].
    + exists l, p, w, r, res1, res2, expected, actual1, actual2, task0, cls, model_outs, g1.
      eexists. repeat split; try eassumption; try done.
      rewrite Hlog4, Hlog2. simpl. rewrite Hlog3, Hlog1. by simpl.
    + injection Ha3 as <-. simpl in Hexp. by rewrite lookup_empty in Hexp.
  - bind_inv H. bind_inv H. destruct a0 as [model_outs g1].
    bind_inv H. bind_inv H. bind_inv H. bind_inv H. bind_inv H. bind_inv H. bind_inv H.
    injection H as <- <-.
    rewrite decide_False, decide_True in Ha2, Ha6 by done.
    apply update_times_log in Ha2 as (l & p & w & r & Hparse & Hlog1); [|done].
    apply update_times_log in Ha6 as (l' & p' & w' & r' & Hparse' & Hlog2); [|done].
    rewrite Hparse in Hparse'. injection Hparse' as <- <- <- <-.
    apply compute_and_check_other in Ha4 as (res1 & Hlog3); [|done].
    apply compute_and_check_other in Ha7 as (res2 & Hlog4); [|done].
    exists l, p, w, r, res1, res2.
    rewrite Hlog4, Hlog2. simpl. rewrite Hlog3, Hlog1. by simpl.
Qed.

(** *** The keys of the generated tasks *)

Local Set Default Proof Using "Type".

Lemma chars_round_trip (s : string) : of_chars (chars s) = s.
Proof. induction s as [|c s IH]; simpl; [done|]. by rewrite IH. Qed.

Lemma chars_append (s t : string) :
  chars (s +:+ t) = chars s ++ chars t.
Proof. induction s as [|c s IH]; simpl; [done|]. by rewrite IH. Qed.

Lemma append_inj_suffix (s1 s2 t : string) : s1 +:+ t = s2 +:+ t → s1 = s2.
Proof.
  intros H. apply (f_equal chars) in H.
  rewrite !chars_append in H. apply app_inv_tail in H.
  apply (f_equal of_chars) in H.
  by rewrite !chars_round_trip in H.
Qed.

Lemma append_last_char (s t : string) :
  t ≠ "" →
  last (chars (s +:+ t)) = last (chars t).
Proof.
  intros Ht. rewrite chars_append.
  destruct t as [|c t]; [done|]. rewrite last_app.
  destruct (last (chars (String c t))) eqn:Hl; [done|].
  simpl chars in Hl. rewrite last_cons in Hl. by destruct (last (chars t)).
Qed.

(** The key of field number [j] of the generated task named [n]. *)
Definition field_suffixes : list string := ["-label"; "-prediction"; "-weight"; "-tensor"].

Lemma field_key_inj (n1 n2 s1 s2 : string) :
  s1 ∈ field_suffixes → s2 ∈ field_suffixes →
  n1 +:+ s1 = n2 +:+ s2 → n1 = n2 ∧ s1 = s2.
Proof.
  intros Hs1 Hs2 Heq.
  assert (s1 = s2) as ->.
  { pose proof (f_equal (λ s, last (chars s)) Heq) as Hlast.
    simpl in Hlast. unfold field_suffixes in *.
    repeat (apply elem_of_cons in Hs1 as [->|Hs1]);
      try (by apply elem_of_nil in Hs1);
      repeat (apply elem_of_cons in Hs2 as [->|Hs2]);
      try (by apply elem_of_nil in Hs2);
      try done;
      rewrite !append_last_char in Hlast by done; by vm_compute in Hlast. }
  split; [|done]. by apply append_inj_suffix in Heq.
Qed.

Lemma gen_test_tasks_tensor_name (n : string) :
  tensor_name_or_default
    {| name := n; label_name := n +:+ "-label";
       prediction_name := n +:+ "-prediction"; weight_name := n +:+ "-weight";
       tensor_name := Some (n +:+ "-tensor") |} = n +:+ "-tensor".
Proof. by destruct n. Qed.

Lemma gen_test_tasks_task_keys (task_names : list string) task_info :
  task_info ∈ gen_test_tasks task_names →
  name task_info ∈ task_names ∧
  task_keys task_info = (λ suffix, name task_info +:+ suffix) <$> field_suffixes.
Proof.
  unfold gen_test_tasks. intros (n & -> & Hn)%list_elem_of_fmap.
  split; [done|]. unfold task_keys. by rewrite gen_test_tasks_tensor_name.
Qed.

(** [gen_test_tasks] returns one task per name, in order; the tensor key of a
    generated task is never the default ["tensor"]; and for pairwise distinct
    task names the keys of all generated tasks are pairwise distinct, so
    that the batches of different tasks and fields never collide. *)
Theorem gen_test_tasks_keys_distinct (task_names : list string) :
  name <$> gen_test_tasks task_names = task_names ∧
  (∀ task_info, task_info ∈ gen_test_tasks task_names →
     task_keys task_info =
     [name task_info +:+ "-label"; name task_info +:+ "-prediction";
      name task_info +:+ "-weight"; name task_info +:+ "-tensor"]) ∧
  (NoDup task_names → NoDup (gen_test_tasks task_names ≫= task_keys)).
Proof.
  split; [|split].
  - unfold gen_test_tasks. rewrite <- list_fmap_compose.
    by rewrite <- (list_fmap_id task_names) at 2.
  - intros task_info Hin. by apply gen_test_tasks_task_keys in Hin as [_ ->].
  - intros Hnd. apply NoDup_bind.
    + intros t1 t2 k Ht1 Ht2 Hk1 Hk2.
      pose proof Ht1 as (n1 & -> & _)%list_elem_of_fmap.
      pose proof Ht2 as (n2 & -> & _)%list_elem_of_fmap.
      apply gen_test_tasks_task_keys in Ht1 as [_ Hkeys1].
      apply gen_test_tasks_task_keys in Ht2 as [_ Hkeys2].
      rewrite Hkeys1 in Hk1. rewrite Hkeys2 in Hk2.
      apply list_elem_of_fmap in Hk1 as (s1 & -> & Hs1).
      apply list_elem_of_fmap in Hk2 as (s2 & Heq & Hs2).
      apply field_key_inj in Heq as [Hn _]; [|done..]. simpl in Hn. by rewrite Hn.
    + intros task_info Hin. apply gen_test_tasks_task_keys in Hin as [_ ->].
      apply NoDup_fmap_2_strong; [|compute_done].
      intros s1 s2 Hs1 Hs2 Heq. by apply field_key_inj in Heq as [_ ?].
    + unfold gen_test_tasks. apply NoDup_fmap_2_strong; [|done].
      intros n1 n2 _ _ Heq. by injection Heq.
Qed.

(** *** The generated batches *)

(** What [gen_test_batch] returns, once its five random or supplied values
    are known. *)
Lemma gen_test_batch_ok a seed g batch g' :
  gen_test_batch a seed g = ok (batch, g') →
  ∃ label prediction weight tensor,
    (∀ v, label_value a = Some v → label = v) ∧
    (∀ v, prediction_value a = Some v → prediction = v) ∧
    (∀ v, weight_value a = Some v → weight = v) ∧
    batch =
      let test_batch :=
        <[arg_tensor_name a := tensor]>
          (<[arg_weight_name a := weight]>
             (<[arg_prediction_name a := prediction]>
                (<[arg_label_name a := label]> ∅))) in
      match mask_tensor_name a with
      | Some mask_name =>
          <[mask_name := default (torch_ones (batch_size a)) (mask a)]> test_batch
      | None => test_batch
      end.
Proof.
  unfold gen_test_batch. intros H.
  apply bind_ok in H as (g0 & Hseed & H).
  apply bind_ok in H as ([label g1] & Hlabel & H).
  apply bind_ok in H as ([prediction g2] & Hprediction & H).
  apply bind_ok in H as ([weight g3] & Hweight & H).
  apply bind_ok in H as ([tensor g4] & Htensor & H).
  injection H as <- <-. exists label, prediction, weight, tensor.
  split; [|split; [|split]].
  - intros v Hv. rewrite Hv in Hlabel. by injection Hlabel.
  - intros v Hv. rewrite Hv in Hprediction. by injection Hprediction.
  - intros v Hv. rewrite Hv in Hweight. by injection Hweight.
  - simpl. destruct (mask_tensor_name a); [|done]. by destruct (mask a).
Qed.

(** The keys of a generated batch are exactly the four field names and the
    mask name, if one is given. *)
Theorem gen_test_batch_keys a seed g batch g' :
  gen_test_batch a seed g = ok (batch, g') →
  dom batch =
  list_to_set ([arg_label_name a; arg_prediction_name a; arg_weight_name a;
                arg_tensor_name a] ++ option_list (mask_tensor_name a)).
Proof.
  intros (label & prediction & weight & tensor & _ & _ & _ & ->)%gen_test_batch_ok.
  apply set_eq. intros k.
  destruct (mask_tensor_name a) as [mask_name|]; simpl;
    rewrite ?dom_insert_L, dom_empty_L; set_unfold;
    (split; intros Hk; repeat (destruct Hk as [Hk|Hk]); try done; subst; eauto 10).
Qed.

(** When the field names and the mask name are pairwise distinct, the values
    supplied for the label, the prediction and the weight are stored
    unchanged under their names, and the mask entry is the supplied mask or
    [torch.ones(batch_size)]. *)
Theorem gen_test_batch_supplied_values a seed g batch g' :
  gen_test_batch a seed g = ok (batch, g') →
  NoDup ([arg_label_name a; arg_prediction_name a; arg_weight_name a;
          arg_tensor_name a] ++ option_list (mask_tensor_name a)) →
  (∀ v, label_value a = Some v → batch !! arg_label_name a = Some v) ∧
  (∀ v, prediction_value a = Some v → batch !! arg_prediction_name a = Some v) ∧
  (∀ v, weight_value a = Some v → batch !! arg_weight_name a = Some v) ∧
  (∀ mask_name, mask_tensor_name a = Some mask_name →
     batch !! mask_name = Some (default (torch_ones (batch_size a)) (mask a))).
Proof.
  intros (label & prediction & weight & tensor & Hl & Hp & Hw & ->)%gen_test_batch_ok Hnd.
  destruct (mask_tensor_name a) as [mask_name|]; simpl in *.
  - apply NoDup_cons in Hnd as [H1 Hnd]. apply NoDup_cons in Hnd as [H2 Hnd].
    apply NoDup_cons in Hnd as [H3 Hnd]. apply NoDup_cons in Hnd as [H4 _].
    repeat setoid_rewrite not_elem_of_cons in H1.
    repeat setoid_rewrite not_elem_of_cons in H2.
    repeat setoid_rewrite not_elem_of_cons in H3.
    repeat setoid_rewrite not_elem_of_cons in H4.
    destruct H1 as (? & ? & ? & ? & _), H2 as (? & ? & ? & _), H3 as (? & ? & _),
      H4 as (? & _).
    repeat split.
    + intros v Hv. rewrite (Hl v Hv). by simplify_map_eq.
    + intros v Hv. rewrite (Hp v Hv). by simplify_map_eq.
    + intros v Hv. rewrite (Hw v Hv). by simplify_map_eq.
    + intros m [= <-]. by simplify_map_eq.
  - apply NoDup_cons in Hnd as [H1 Hnd]. apply NoDup_cons in Hnd as [H2 Hnd].
    apply NoDup_cons in Hnd as [H3 _].
    repeat setoid_rewrite not_elem_of_cons in H1.
    repeat setoid_rewrite not_elem_of_cons in H2.
    repeat setoid_rewrite not_elem_of_cons in H3.
    destruct H1 as (? & ? & ? & _), H2 as (? & ? & _), H3 as (? & _).
    repeat split.
    + intros v Hv. rewrite (Hl v Hv). by simplify_map_eq.
    + intros v Hv. rewrite (Hp v Hv). by simplify_map_eq.
    + intros v Hv. rewrite (Hw v Hv). by simplify_map_eq.
    + done.
Qed.

(** *** When [compute] returns and when it raises *)

(** A model output is complete for [tasks] when it holds the four keys of
    every task. *)
Definition complete (tasks : list RecTaskInfo) (model_out : gmap string Tensor) : Prop :=
  Forall (λ task_info, Forall (λ k, is_Some (model_out !! k)) (task_keys task_info)) tasks.

Lemma compute_task_metrics tm model_outs nsteps batch_window_size timestamps :
  compute tm model_outs nsteps batch_window_size timestamps =
  (let* evs := step_states tm model_outs (range nsteps) ∅ in
   ok (task_metrics tm (_compute_lifetime_metric tm)
         (task_accumulation ev_states every_step evs),
       task_metrics tm (_compute_window_metric tm)
         (task_accumulation ev_states (trailing nsteps batch_window_size) evs),
       task_metrics tm (_local_compute_lifetime_metric tm)
         (task_accumulation ev_local_states every_step evs),
       task_metrics tm (_local_compute_window_metric tm)
         (task_accumulation ev_local_states (trailing nsteps batch_window_size) evs))).
Proof.
  unfold compute. rewrite compute_states_accumulations. unfold bind.
  destruct (step_states tm model_outs (range nsteps) ∅) as [err|evs]; [done|].
  unfold ok. cbv beta iota.
  rewrite compute_metrics_per_task. simpl.
  by rewrite !states_map_metrics.
Qed.

Lemma mapM_ok_iff {A B} (f : A → Result B) (l : list A) :
  (∃ ys, mapM f l = ok ys) ↔ Forall (λ x, ∃ y, f x = ok y) l.
Proof.
  induction l as [|x l IH]; simpl.
  - split; [constructor|]. by exists [].
  - rewrite Forall_cons, <- IH. unfold bind. split.
    + intros [ys H]. destruct (f x) as [e|y]; [done|].
      destruct (mapM f l) as [e|ys']; [done|]. split; [by exists y|by exists ys'].
    + intros [[y Hy] [ys Hys]]. rewrite Hy, Hys. by exists (y :: ys).
Qed.

Lemma task_states_ok_iff tm i model_out aggregated task_info :
  (∃ ev, task_states tm i model_out aggregated task_info = ok ev) ↔
  Forall (λ k, is_Some (aggregated !! k)) (task_keys task_info) ∧
  Forall (λ k, is_Some (model_out !! k)) (task_keys task_info).
Proof.
  unfold task_states, task_keys, getitem, bind.
  rewrite !Forall_cons, !Forall_nil.
  repeat match goal with
    | |- context [ match ?m !! ?k with _ => _ end ] =>
        destruct (m !! k); simpl;
        [|split;
          [by intros [? ?]
          |intros [(? & ? & ? & ? & _) (? & ? & ? & ? & _)];
           repeat match goal with
             | H : is_Some None |- _ => by destruct H
             end]]
    end.
  split; [|intros _; by eexists].
  intros _. split_and!; by eexists.
Qed.

Lemma gather_step_is_Some world_size i (model_out aggregated : gmap string Tensor) k :
  is_Some (model_out !! k) →
  is_Some (gather_step world_size i model_out aggregated !! k).
Proof. intros [v Hv]. rewrite gather_step_lookup, Hv. by eexists. Qed.

Lemma complete_tasks_ok tm i model_out aggregated :
  complete (_rec_tasks tm) model_out ↔
  ∃ evs, mapM (task_states tm i model_out
                 (gather_step (world_size tm) i model_out aggregated))
              (_rec_tasks tm) = ok evs.
Proof.
  rewrite mapM_ok_iff. unfold complete. apply Forall_iff. intros task_info.
  rewrite task_states_ok_iff. split; [|by intros [_ ?]].
  intros Hout. split; [|done].
  eapply Forall_impl; [exact Hout|]. intros k. apply gather_step_is_Some.
Qed.

Lemma step_states_ok_iff tm model_outs steps :
  ∀ aggregated,
    (∃ evs, step_states tm model_outs steps aggregated = ok evs) ↔
    Forall (λ i, ∃ model_out, model_outs !! i = Some model_out ∧
                              complete (_rec_tasks tm) model_out) steps.
Proof.
  induction steps as [|i steps IH]; intros aggregated; simpl.
  - split; [constructor|]. by exists [].
  - rewrite Forall_cons. unfold list_getitem.
    destruct (model_outs !! i) as [model_out|] eqn:Hi; simpl.
    + split.
      * intros [evs H]. unfold bind in H.
        destruct (mapM _ (_rec_tasks tm)) as [e|evs1] eqn:Hevs1; [done|].
        destruct (step_states tm model_outs steps _) as [e|rest] eqn:Hrest; [done|].
        split.
        -- exists model_out. split; [done|].
           apply (complete_tasks_ok tm i model_out aggregated). by eexists.
        -- apply (IH (gather_step (world_size tm) i model_out aggregated)). by eexists.
      * intros [(out & [= <-] & Hc) Hrest].
        apply (complete_tasks_ok tm i model_out aggregated) in Hc as [evs1 Hevs1].
        apply (IH (gather_step (world_size tm) i model_out aggregated)) in Hrest
          as [rest Hrest].
        unfold bind. rewrite Hevs1, Hrest. by eexists.
    + split; [by intros [? ?]|]. by intros [(out & ? & _) _].
Qed.

Lemma step_states_index_error tm model_outs steps :
  ∀ aggregated,
    Forall (complete (_rec_tasks tm)) model_outs →
    Exists (λ i, (length model_outs ≤ i)%nat) steps →
    step_states tm model_outs steps aggregated = raise IndexError.
Proof.
  intros aggregated Hall. revert aggregated.
  induction steps as [|i steps IH]; intros aggregated Hex; simpl.
  - by apply Exists_nil in Hex.
  - unfold list_getitem. destruct (model_outs !! i) as [model_out|] eqn:Hi; simpl; [|done].
    assert (complete (_rec_tasks tm) model_out) as Hc.
    { rewrite Forall_forall in Hall. apply Hall. by eapply list_elem_of_lookup_2. }
    apply (complete_tasks_ok tm i model_out aggregated) in Hc as [evs Hevs].
    rewrite Hevs. simpl. rewrite IH; [done|].
    apply Exists_cons in Hex as [Hle|Hex]; [|done].
    apply lookup_lt_Some in Hi. lia.
Qed.

(** [compute] returns a result exactly when every step of [range(nsteps)]
    has a model output and that output holds the label, prediction, weight
    and tensor keys of every task. *)
Theorem compute_returns_iff tm model_outs nsteps batch_window_size timestamps :
  (∃ result, compute tm model_outs nsteps batch_window_size timestamps = ok result) ↔
  ∀ i : nat, Z.of_nat i < nsteps →
    ∃ model_out, model_outs !! i = Some model_out ∧
                 complete (_rec_tasks tm) model_out.
Proof.
  rewrite compute_task_metrics.
  transitivity (∃ evs, step_states tm model_outs (range nsteps) ∅ = ok evs).
  - unfold bind. destruct (step_states tm model_outs (range nsteps) ∅) as [e|evs].
    + split; by intros [? ?].
    + split; intros _; by eexists.
  - rewrite step_states_ok_iff, Forall_forall. unfold range.
    split; intros H i Hi.
    + apply H. apply elem_of_seq. lia.
    + apply H. apply elem_of_seq in Hi. lia.
Qed.

(** With complete model outputs but fewer of them than [nsteps], [compute]
    raises [IndexError]. *)
Theorem compute_too_few_outputs tm model_outs nsteps batch_window_size timestamps :
  Forall (complete (_rec_tasks tm)) model_outs →
  Z.of_nat (length model_outs) < nsteps →
  compute tm model_outs nsteps batch_window_size timestamps = raise IndexError.
Proof.
  intros Hall Hlen. rewrite compute_task_metrics.
  rewrite step_states_index_error; [done|done|].
  apply Exists_exists. exists (length model_outs). split; [|done].
  unfold range. apply elem_of_seq. lia.
Qed.

(** When the first model output lacks the label key of the first task,
    [compute] raises [KeyError] for that key. *)
Theorem compute_missing_label tm model_out model_outs nsteps batch_window_size
    timestamps task_info tasks :
  _rec_tasks tm = task_info :: tasks →
  0 < nsteps →
  model_out !! label_name task_info = None →
  compute tm (model_out :: model_outs) nsteps batch_window_size timestamps =
  raise (KeyError (label_name task_info)).
Proof.
  intros Htasks Hn Hmissing. rewrite compute_task_metrics. unfold range.
  destruct (Z.to_nat nsteps) as [|n] eqn:Hnat; [lia|].
  simpl. rewrite Htasks. simpl. unfold task_states at 1, getitem at 1.
  by rewrite gather_step_lookup, Hmissing, lookup_empty.
Qed.

(** With [nsteps <= 0] no model output is read: every enabled metric of
    every task is [_compute] of the empty states. *)
Theorem compute_no_steps tm model_outs nsteps batch_window_size timestamps :
  nsteps ≤ 0 →
  compute tm model_outs nsteps batch_window_size timestamps =
  ok (task_metrics tm (_compute_lifetime_metric tm) (λ _, ∅),
      task_metrics tm (_compute_window_metric tm) (λ _, ∅),
      task_metrics tm (_local_compute_lifetime_metric tm) (λ _, ∅),
      task_metrics tm (_local_compute_window_metric tm) (λ _, ∅)).
Proof.
  intros Hn. rewrite compute_task_metrics. unfold range.
  by replace (Z.to_nat nsteps) with 0%nat by lia.
Qed.

Lemma dom_per_task {V} tasks (f : string → V) :
  dom (per_task tasks f) = list_to_set (name <$> tasks).
Proof.
  apply set_eq. intros n. rewrite elem_of_dom, per_task_lookup, elem_of_list_to_set.
  destruct (decide (n ∈ name <$> tasks)) as [Hin|Hnin].
  - split; [done|]. intros _. by eexists.
  - split; [|done]. by intros [? ?].
Qed.

(** Each of the four mappings [compute] returns has exactly the task names
    as keys. *)
Theorem compute_result_keys tm model_outs nsteps batch_window_size timestamps
    lifetime window local_lifetime local_window :
  compute tm model_outs nsteps batch_window_size timestamps =
    ok (lifetime, window, local_lifetime, local_window) →
  dom lifetime = list_to_set (name <$> _rec_tasks tm) ∧
  dom window = list_to_set (name <$> _rec_tasks tm) ∧
  dom local_lifetime = list_to_set (name <$> _rec_tasks tm) ∧
  dom local_window = list_to_set (name <$> _rec_tasks tm).
Proof.
  rewrite compute_task_metrics. intros H.
  apply bind_ok in H as (evs & _ & H). injection H as <- <- <- <-.
  unfold task_metrics. by rewrite !dom_per_task.
Qed.

(** *** Window, lifetime, global and local values *)

Lemma task_accumulation_ext_steps sel (P Q : nat → bool) evs n :
  Forall (λ ev, P (ev_step ev) = Q (ev_step ev)) evs →
  task_accumulation sel P evs n = task_accumulation sel Q evs n.
Proof.
  intros H. unfold task_accumulation. f_equal. f_equal.
  apply filter_ext_Forall. eapply Forall_impl; [exact H|].
  intros ev ->. done.
Qed.

Lemma task_accumulation_ext_states (sel sel' : StepStates → gmap string Tensor) P evs n :
  Forall (λ ev, sel ev = sel' ev) evs →
  task_accumulation sel P evs n = task_accumulation sel' P evs n.
Proof.
  intros H. unfold task_accumulation. f_equal.
  apply Forall_fmap_ext_1. rewrite Forall_forall in H. apply Forall_forall.
  intros ev Hev. apply H. by apply list_elem_of_filter in Hev as [_ ?].
Qed.

Lemma task_accumulation_no_steps sel evs n :
  task_accumulation sel (λ _, false) evs n = ∅.
Proof.
  unfold task_accumulation.
  rewrite (list_filter_iff _ (λ _, False)); [by rewrite filter_nothing|].
  intros ev. split; [by intros [_ ?]|done].
Qed.

Lemma task_metrics_ext tm (flag : bool) f f' :
  (∀ n, f n = f' n) → task_metrics tm flag f = task_metrics tm flag f'.
Proof.
  intros H. unfold task_metrics. apply per_task_ext. intros n _. by rewrite H.
Qed.

(** When the window is at least as long as the run
    ([nsteps <= batch_window_size]), the window values are the lifetime
    values, globally and locally, for accumulators enabled alike. *)
Theorem compute_window_covers_run tm model_outs nsteps batch_window_size timestamps
    lifetime window local_lifetime local_window :
  nsteps ≤ batch_window_size →
  compute tm model_outs nsteps batch_window_size timestamps =
    ok (lifetime, window, local_lifetime, local_window) →
  (_compute_window_metric tm = _compute_lifetime_metric tm → window = lifetime) ∧
  (_local_compute_window_metric tm = _local_compute_lifetime_metric tm →
   local_window = local_lifetime).
Proof.
  intros Hw. rewrite compute_task_metrics. intros H.
  apply bind_ok in H as (evs & Hevs & H). injection H as <- <- <- <-.
  apply step_states_steps in Hevs.
  assert (Forall (λ ev, trailing nsteps batch_window_size (ev_step ev) =
                        every_step (ev_step ev)) evs) as Hall.
  { eapply Forall_impl; [exact Hevs|]. intros ev Hev.
    unfold range in Hev. apply elem_of_seq in Hev.
    unfold trailing, every_step. apply bool_decide_eq_true. lia. }
  split; intros ->; apply task_metrics_ext; intros n;
    by apply task_accumulation_ext_steps.
Qed.

(** With [batch_window_size <= 0] no step is in the window: the enabled
    window values are [_compute] of the empty states. *)
Theorem compute_empty_window tm model_outs nsteps batch_window_size timestamps
    lifetime window local_lifetime local_window :
  batch_window_size ≤ 0 →
  compute tm model_outs nsteps batch_window_size timestamps =
    ok (lifetime, window, local_lifetime, local_window) →
  window = task_metrics tm (_compute_window_metric tm) (λ _, ∅) ∧
  local_window = task_metrics tm (_local_compute_window_metric tm) (λ _, ∅).
Proof.
  intros Hw. rewrite compute_task_metrics. intros H.
  apply bind_ok in H as (evs & _ & H). injection H as <- <- <- <-.
  assert (Forall (λ ev, trailing nsteps batch_window_size (ev_step ev) = false) evs)
    as Hall.
  { apply Forall_true. intros ev. unfold trailing. apply bool_decide_eq_false. lia. }
  split; apply task_metrics_ext; intros n;
    rewrite (task_accumulation_ext_steps _ _ (λ _, false)) by done;
    apply task_accumulation_no_steps.
Qed.

Lemma single_rank_task_states tm i model_out aggregated task_info ev :
  (∀ v, torch_cat [v] = v) →
  (∀ i k v, dist_all_gather i k [zeros_like v] v = [v]) →
  world_size tm = 1 →
  task_states tm i model_out (gather_step (world_size tm) i model_out aggregated)
    task_info = ok ev →
  ev_states ev = ev_local_states ev.
Proof.
  intros Hcat Hgather Hws. 
  assert (∀ k v, model_out !! k = Some v →
                 getitem (gather_step (world_size tm) i model_out aggregated) k = ok v)
    as Hsame.
  { intros k v Hv. unfold getitem. rewrite gather_step_lookup, Hv, Hws. simpl.
    by rewrite Hgather, Hcat. }
  intros H.
  assert (∃ ev', task_states tm i model_out
                   (gather_step (world_size tm) i model_out aggregated) task_info =
                 ok ev') as Hok by by exists ev.
  apply task_states_ok_iff in Hok as [_ Hout].
  unfold task_keys in Hout. rewrite !Forall_cons in Hout.
  destruct Hout as ([l Hl] & [p Hp] & [w Hw] & [t Ht] & _).
  unfold task_states in H.
  rewrite (Hsame _ _ Hl), (Hsame _ _ Hp), (Hsame _ _ Hw), (Hsame _ _ Ht) in H.
  unfold getitem in H. rewrite Hl, Hp, Hw, Ht in H. simpl in H.
  by injection H as <-.
Qed.

Lemma mapM_Forall {A B} (f : A → Result B) (P : B → Prop) (l : list A) :
  (∀ x y, f x = ok y → P y) → ∀ ys, mapM f l = ok ys → Forall P ys.
Proof.
  intros Hf. induction l as [|x l IH]; intros ys; simpl.
  - intros [= <-]. constructor.
  - intros H. apply bind_ok in H as (y & Hy & H).
    apply bind_ok in H as (ys' & Hys' & H). injection H as <-.
    constructor; [by eapply Hf|by apply IH].
Qed.

Lemma single_rank_step_states tm model_outs steps :
  (∀ v, torch_cat [v] = v) →
  (∀ i k v, dist_all_gather i k [zeros_like v] v = [v]) →
  world_size tm = 1 →
  ∀ aggregated evs,
    step_states tm model_outs steps aggregated = ok evs →
    Forall (λ ev, ev_states ev = ev_local_states ev) evs.
Proof.
  intros Hcat Hgather Hws.
  induction steps as [|i steps IH]; intros aggregated evs; simpl.
  - intros [= <-]. constructor.
  - intros H. apply bind_ok in H as (model_out & _ & H).
    apply bind_ok in H as (evs1 & Hevs1 & H).
    apply bind_ok in H as (rest & Hrest & H). injection H as <-.
    apply Forall_app. split; [|by eapply IH].
    eapply mapM_Forall; [|exact Hevs1].
    intros task_info ev. by apply single_rank_task_states.
Qed.

(** On a single rank, where gathering a tensor and concatenating the result
    gives the tensor back, the global values are the local values, for
    accumulators enabled alike. *)
Theorem compute_single_rank tm model_outs nsteps batch_window_size timestamps
    lifetime window local_lifetime local_window :
  (∀ v, torch_cat [v] = v) →
  (∀ i k v, dist_all_gather i k [zeros_like v] v = [v]) →
  world_size tm = 1 →
  compute tm model_outs nsteps batch_window_size timestamps =
    ok (lifetime, window, local_lifetime, local_window) →
  (_compute_lifetime_metric tm = _local_compute_lifetime_metric tm →
   lifetime = local_lifetime) ∧
  (_compute_window_metric tm = _local_compute_window_metric tm →
   window = local_window).
Proof.
  intros Hcat Hgather Hws. rewrite compute_task_metrics. intros H.
  apply bind_ok in H as (evs & Hevs & H). injection H as <- <- <- <-.
  apply (single_rank_step_states tm model_outs _ Hcat Hgather Hws) in Hevs.
  split; intros ->; apply task_metrics_ext; intros n;
    by apply task_accumulation_ext_states.
Qed.

(** [_aggregate] never removes a state: its keys are the keys of both
    mappings. *)
Theorem aggregate_keys (states new_states : gmap string Tensor) :
  dom (_aggregate states new_states) = dom states ∪ dom new_states.
Proof.
  apply set_eq. intros k. rewrite elem_of_union, !elem_of_dom, aggregate_lookup.
  destruct (new_states !! k) as [v|]; unfold is_Some.
  - split; [|intros _; by eexists]. intros _. right. by eexists.
  - split; [by left|]. by intros [?|[? ?]].
Qed.

(** *** The model outputs of the value test *)

Lemma merge_loop_lookup (ds : list (gmap string Tensor)) :
  ∀ (merged : gmap string Tensor) k v,
    foldl (λ merged d, d ∪ merged) merged ds !! k = Some v →
    (∃ d, d ∈ ds ∧ d !! k = Some v) ∨ merged !! k = Some v.
Proof.
  induction ds as [|d ds IH]; intros merged k v; simpl; [by right|].
  intros H. apply IH in H as [(d' & Hd' & Hv)|H].
  - left. exists d'. split; [by apply list_elem_of_further|done].
  - apply lookup_union_Some_raw in H as [H|[_ H]]; [|by right].
    left. exists d. split; [apply list_elem_of_here|done].
Qed.

Lemma merge_loop_is_Some (ds : list (gmap string Tensor)) :
  ∀ (merged : gmap string Tensor) k,
    (∃ d, d ∈ ds ∧ is_Some (d !! k)) ∨ is_Some (merged !! k) →
    is_Some (foldl (λ merged d, d ∪ merged) merged ds !! k).
Proof.
  induction ds as [|d ds IH]; intros merged k; simpl.
  - intros [(d & Hd & _)|H]; [by apply elem_of_nil in Hd|done].
  - intros [(d' & Hd' & Hk)|H]; apply IH.
    + apply elem_of_cons in Hd' as [->|Hd'].
      * right. rewrite lookup_union. destruct Hk as [v ->].
        destruct (merged !! k); by eexists.
      * left. by exists d'.
    + right. rewrite lookup_union. destruct H as [v ->].
      destruct (d !! k); by eexists.
Qed.

Lemma gen_task_batches_ok args seed tasks :
  ∀ g batches g',
    gen_task_batches args seed tasks g = ok (batches, g') →
    Forall2 (λ task batch, ∃ g1 g2, gen_test_batch (args task) seed g1 = ok (batch, g2))
            tasks batches.
Proof.
  induction tasks as [|task tasks IH]; intros g batches g'; simpl.
  - intros [= <- <-]. constructor.
  - intros H. apply bind_ok in H as ([batch g1] & Hbatch & H).
    apply bind_ok in H as ([batches' g2] & Hbatches & H). injection H as <- <-.
    constructor; [by exists g, g1|by eapply IH].
Qed.

Lemma value_batch_complete batch_size n_classes weight_value label_value task seed g
    batch g' :
  gen_test_batch (value_batch_args batch_size n_classes weight_value label_value task)
    seed g = ok (batch, g') →
  Forall (λ k, is_Some (batch !! k)) (task_keys task).
Proof.
  intros (label & prediction & weight & tensor & _ & _ & _ & ->)%gen_test_batch_ok.
  simpl. unfold task_keys. rewrite !Forall_cons, Forall_nil.
  split_and!; try done; rewrite !lookup_insert; repeat case_decide;
    try done; by eexists.
Qed.

Lemma merged_batches_complete batch_size n_classes weight_value label_value tasks g
    batches g' :
  gen_task_batches (value_batch_args batch_size n_classes weight_value label_value)
    None tasks g = ok (batches, g') →
  complete tasks (merge_batches batches).
Proof.
  intros H. apply gen_task_batches_ok in H. unfold complete.
  apply Forall_forall. intros task Htask.
  apply list_elem_of_lookup in Htask as [j Hj].
  destruct (Forall2_lookup_l _ _ _ _ _ H Hj) as (batch & Hbatch & g1 & g2 & Hgen).
  apply value_batch_complete in Hgen.
  eapply Forall_impl; [exact Hgen|]. intros k Hk.
  apply merge_loop_is_Some. left. exists batch.
  split; [by eapply list_elem_of_lookup_2|done].
Qed.

Lemma gen_model_outs_loop (tasks : list RecTaskInfo) batch_size n_classes
    (zero_weights zero_labels : bool) (P : gmap string Tensor → Prop) (steps : list nat) :
  (∀ g batches g',
     gen_task_batches
       (value_batch_args batch_size n_classes
          (if zero_weights then Some (torch_zeros batch_size) else None)
          (if zero_labels then Some (torch_zeros batch_size) else None))
       None tasks g = ok (batches, g') →
     P (merge_batches batches)) →
  ∀ model_outs0 g model_outs g',
    foldlM
      (λ '(model_outs, g) _,
         let weight_value := if zero_weights then Some (torch_zeros batch_size) else None in
         let label_value := if zero_labels then Some (torch_zeros batch_size) else None in
         let* '(_model_outs, g) :=
           gen_task_batches
             (value_batch_args batch_size n_classes weight_value label_value)
             None tasks g in
         ok (model_outs ++ [merge_batches _model_outs], g))
      (model_outs0, g) steps = ok (model_outs, g') →
    ∃ new, model_outs = model_outs0 ++ new ∧ length new = length steps ∧ Forall P new.
Proof.
  intros HP. induction steps as [|i steps IH]; intros outs0 g outs g'; simpl.
  - intros [= <- <-]. exists []. by rewrite app_nil_r.
  - intros H. apply bind_ok in H as ([outs1 g1] & Hstep & H).
    apply bind_ok in Hstep as ([batches g2] & Hbatches & Hstep).
    injection Hstep as <- <-.
    apply IH in H as (new & -> & Hlen & Hnew).
    exists (merge_batches batches :: new). rewrite <- app_assoc. simpl.
    split; [done|]. split; [by rewrite Hlen|].
    constructor; [by eapply HP|done].
Qed.

Lemma compute_ok_of_complete tm model_outs nsteps batch_window_size timestamps :
  (Z.to_nat nsteps ≤ length model_outs)%nat →
  Forall (complete (_rec_tasks tm)) model_outs →
  ∃ result, compute tm model_outs nsteps batch_window_size timestamps = ok result.
Proof.
  intros Hlen Hall. rewrite compute_task_metrics.
  assert (∃ evs, step_states tm model_outs (range nsteps) ∅ = ok evs) as [evs ->].
  { apply step_states_ok_iff. apply Forall_forall. intros i Hi.
    unfold range in Hi. apply elem_of_seq in Hi.
    destruct (lookup_lt_is_Some_2 model_outs i) as [model_out Hout]; [lia|].
    exists model_out. split; [done|].
    rewrite Forall_forall in Hall. apply Hall. by eapply list_elem_of_lookup_2. }
  by eexists.
Qed.

(** The model outputs generated by the value test are [nsteps] in number and
    each holds the four keys of every task, so that the reference
    computation on them returns a result: the helper never fails with
    [IndexError] or [KeyError] on its own batches. *)
Theorem gen_model_outs_complete tasks batch_size nsteps n_classes
    zero_weights zero_labels g model_outs g' :
  gen_model_outs tasks batch_size nsteps n_classes zero_weights zero_labels g =
    ok (model_outs, g') →
  length model_outs = Z.to_nat nsteps ∧
  Forall (complete tasks) model_outs ∧
  (∀ cls world_size batch_window_size timestamps,
     ∃ test_metrics,
       get_test_rec_metric_value (Some cls) world_size nsteps batch_window_size
         model_outs tasks timestamps = ok test_metrics).
Proof.
  unfold gen_model_outs. intros H.
  apply (gen_model_outs_loop tasks batch_size n_classes zero_weights zero_labels
           (complete tasks)) in H as (new & -> & Hlen & Hall).
  - simpl. unfold range in Hlen. rewrite length_seq in Hlen.
    split; [done|]. split; [done|].
    intros cls ws bws ts. unfold get_test_rec_metric_value.
    apply compute_ok_of_complete; [lia|done].
  - intros g0 batches g1. apply merged_batches_complete.
Qed.

Lemma value_batch_supplied task_names batch_size n_classes weight_value label_value
    task seed g batch g' n v :
  task ∈ gen_test_tasks task_names →
  gen_test_batch (value_batch_args batch_size n_classes weight_value label_value task)
    seed g = ok (batch, g') →
  (batch !! (n +:+ "-weight") = Some v → ∀ z, weight_value = Some z → v = z) ∧
  (batch !! (n +:+ "-label") = Some v → ∀ z, label_value = Some z → v = z).
Proof.
  intros (n' & -> & _)%list_elem_of_fmap
    (label & prediction & weight & tensor & Hl & _ & Hw & ->)%gen_test_batch_ok.
  assert (∀ s1 s2, s1 ∈ field_suffixes → s2 ∈ field_suffixes → s1 ≠ s2 →
                   n' +:+ s1 ≠ n +:+ s2) as Hne.
  { intros s1 s2 H1 H2 Hs Heq. by apply field_key_inj in Heq as [_ ?]. }
  simpl in *. rewrite gen_test_tasks_tensor_name. split; intros H z Hz.
  - rewrite lookup_insert_ne in H by (apply Hne; compute_done).
    rewrite lookup_insert in H. case_decide; [|].
    + injection H as <-. by apply Hw.
    + rewrite !lookup_insert_ne in H by (apply Hne; compute_done).
      by rewrite lookup_empty in H.
  - rewrite !lookup_insert_ne in H by (apply Hne; compute_done).
    rewrite lookup_insert in H. case_decide; [|by rewrite lookup_empty in H].
    injection H as <-. by apply Hl.
Qed.

Lemma merged_batches_supplied task_names batch_size n_classes weight_value label_value
    g batches g' n :
  n ∈ task_names →
  gen_task_batches (value_batch_args batch_size n_classes weight_value label_value)
    None (gen_test_tasks task_names) g = ok (batches, g') →
  (∀ z, weight_value = Some z → merge_batches batches !! (n +:+ "-weight") = Some z) ∧
  (∀ z, label_value = Some z → merge_batches batches !! (n +:+ "-label") = Some z).
Proof.
  intros Hn Hgen.
  pose proof (merged_batches_complete _ _ _ _ _ _ _ _ Hgen) as Hc.
  apply gen_task_batches_ok in Hgen.
  assert (∀ k v, merge_batches batches !! k = Some v →
                 ∃ task batch g1 g2,
                   task ∈ gen_test_tasks task_names ∧ batch !! k = Some v ∧
                   gen_test_batch
                     (value_batch_args batch_size n_classes weight_value label_value task)
                     None g1 = ok (batch, g2)) as Hfrom.
  { intros k v Hk. apply merge_loop_lookup in Hk as [(d & Hd & Hv)|Hk];
      [|by rewrite lookup_empty in Hk].
    apply list_elem_of_lookup in Hd as [j Hj].
    destruct (Forall2_lookup_r _ _ _ _ _ Hgen Hj) as (task & Htask & g1 & g2 & Hb).
    exists task, d, g1, g2. split; [by eapply list_elem_of_lookup_2|done]. }
  unfold complete in Hc. rewrite Forall_forall in Hc.
  assert ({| name := n; label_name := n +:+ "-label";
             prediction_name := n +:+ "-prediction"; weight_name := n +:+ "-weight";
             tensor_name := Some (n +:+ "-tensor") |} ∈ gen_test_tasks task_names)
    as Htask.
  { unfold gen_test_tasks. apply list_elem_of_fmap. by exists n. }
  specialize (Hc _ Htask). unfold task_keys in Hc. simpl in Hc.
  rewrite !Forall_cons in Hc. destruct Hc as ([l Hl] & _ & [w Hw] & _).
  split; intros z Hz.
  - rewrite Hw. f_equal.
    destruct (Hfrom _ _ Hw) as (task & batch & g1 & g2 & Ht & Hv & Hb).
    by eapply (proj1 (value_batch_supplied _ _ _ _ _ _ _ _ _ _ n w Ht Hb)).
  - rewrite Hl. f_equal.
    destruct (Hfrom _ _ Hl) as (task & batch & g1 & g2 & Ht & Hv & Hb).
    by eapply (proj2 (value_batch_supplied _ _ _ _ _ _ _ _ _ _ n l Ht Hb)).
Qed.

(** With [zero_weights] every weight tensor of every generated model output
    is [torch.zeros(batch_size)], and with [zero_labels] every label tensor
    is: no other task or field overwrites them. *)
Theorem gen_model_outs_zero_values task_names batch_size nsteps n_classes
    (zero_weights zero_labels : bool) g model_outs g' :
  gen_model_outs (gen_test_tasks task_names) batch_size nsteps n_classes
    zero_weights zero_labels g = ok (model_outs, g') →
  Forall (λ model_out, ∀ n, n ∈ task_names →
            (zero_weights = true →
             model_out !! (n +:+ "-weight") = Some (torch_zeros batch_size)) ∧
            (zero_labels = true →
             model_out !! (n +:+ "-label") = Some (torch_zeros batch_size)))
         model_outs.
Proof.
  unfold gen_model_outs. intros H.
  apply (gen_model_outs_loop (gen_test_tasks task_names) batch_size n_classes
           zero_weights zero_labels
           (λ model_out, ∀ n, n ∈ task_names →
              (zero_weights = true →
               model_out !! (n +:+ "-weight") = Some (torch_zeros batch_size)) ∧
              (zero_labels = true →
               model_out !! (n +:+ "-label") = Some (torch_zeros batch_size))))
    in H as (new & -> & _ & Hall); [done|].
  intros g0 batches g1 Hgen n Hn.
  destruct (merged_batches_supplied _ _ _ _ _ _ _ _ n Hn Hgen) as [Hw Hl].
  split; intros ->; [by apply Hw|by apply Hl].
Qed.

(** *** The comparison of [metric_test_helper] *)

(** The target value under [key] and the reference value under [name] exist
    and are close. *)
Definition close_values (target_metrics : gmap string Tensor) (key : string)
    (test_metrics_k : gmap string Tensor) (name : string) : Prop :=
  ∃ actual expected,
    target_metrics !! key = Some actual ∧ test_metrics_k !! name = Some expected ∧
    allclose actual expected = true.

Lemma assert_allclose_ok_iff target_metrics key test_metrics_k name :
  assert_allclose target_metrics key test_metrics_k name = ok () ↔
  close_values target_metrics key test_metrics_k name.
Proof.
  unfold assert_allclose, close_values, getitem, bind.
  destruct (target_metrics !! key) as [a|]; simpl.
  - destruct (test_metrics_k !! name) as [b|]; simpl.
    + destruct (allclose a b) eqn:Hc.
      * split; [|done]. intros _. by exists a, b.
      * split; [done|]. intros (a' & b' & [= <-] & [= <-] & Hc'). congruence.
    + split; [done|]. by intros (a' & b' & _ & ? & _).
  - split; [done|]. by intros (a' & b' & ? & _).
Qed.

Lemma bind_unit_ok_iff (r : Result unit) (k : unit → Result unit) :
  bind r k = ok () ↔ r = ok () ∧ k () = ok ().
Proof.
  destruct r as [e|[]]; simpl; [|by split; [|intros [_ ?]]].
  split; [done|by intros [? _]].
Qed.

Lemma foldlM_unit_ok_iff {A} (f : A → Result unit) (l : list A) :
  foldlM (λ _ x, f x) () l = ok () ↔ Forall (λ x, f x = ok ()) l.
Proof.
  induction l as [|x l IH]; simpl; [by split; [constructor|]|].
  rewrite Forall_cons, <- IH. apply bind_unit_ok_iff.
Qed.

(** Whether the lifetime values of a target class are compared. *)
Definition lifetime_compared (target_clazz_id : MetricClass) : Prop :=
  target_clazz_id ≠ AUCMetric ∧ target_clazz_id ≠ AUPRCMetric ∧
  target_clazz_id ≠ RAUCMetric.

(** The comparison passes on rank 0 exactly when, for every task name, the
    window and local-window values of the target exist and are close to the
    reference values, and so are the lifetime and local-lifetime values
    unless the target is one of the three AUC-like classes, whose lifetime
    keys are not even read; on every other rank nothing is compared. *)
Theorem check_task_metrics_passes_iff rank target_clazz_id namespace metric_name
    task_names target_metrics test_metrics :
  (rank ≠ 0 →
   check_task_metrics rank target_clazz_id namespace metric_name task_names
     target_metrics test_metrics = ok ()) ∧
  (rank = 0 →
   (check_task_metrics rank target_clazz_id namespace metric_name task_names
      target_metrics test_metrics = ok () ↔
    Forall
      (λ name,
         (lifetime_compared target_clazz_id →
          close_values target_metrics
            (target_metric_key namespace name "lifetime_" metric_name)
            (test_metrics.1.1.1) name ∧
          close_values target_metrics
            (target_metric_key namespace name "local_lifetime_" metric_name)
            (test_metrics.1.2) name) ∧
         close_values target_metrics
           (target_metric_key namespace name "window_" metric_name)
           (test_metrics.1.1.2) name ∧
         close_values target_metrics
           (target_metric_key namespace name "local_window_" metric_name)
           (test_metrics.2) name)
      task_names)).
Proof.
  unfold check_task_metrics. split; intros Hrank.
  - by rewrite decide_False.
  - rewrite decide_True by done. rewrite foldlM_unit_ok_iff.
    apply Forall_iff. intros name. unfold check_task, lifetime_compared.
    rewrite !bind_unit_ok_iff, !assert_allclose_ok_iff.
    destruct (bool_decide _) eqn:Hcmp.
    + apply bool_decide_eq_true in Hcmp.
      rewrite bind_unit_ok_iff, !assert_allclose_ok_iff. split.
      * intros (Hab & Hc & Hd). split; [by intros _|done].
      * intros (Hab & Hc & Hd). split; [by apply Hab|done].
    + apply bool_decide_eq_false in Hcmp. split.
      * intros (_ & Hc & Hd). split; [|done]. intros H. by destruct Hcmp.
      * by intros (_ & Hc & Hd).
Qed.

(** *** The sync test on the other ranks and without a reference *)

(** On a rank other than 0 and 1 the sync test sends no update at all: when
    it runs to its end it has only called [compute], [reset] and [compute]
    on the target. *)
Theorem sync_test_helper_idle_rank rank world_size test_clazz task_names metric_name
    compute_on_all_ranks batch_size batch_window_size n_classes kwargs g log g' :
  rank ≠ 0 → rank ≠ 1 →
  sync_test_helper rank world_size test_clazz task_names metric_name
    compute_on_all_ranks batch_size batch_window_size n_classes kwargs g =
    ok (log, g') →
  ∃ res1 res2,
    log =
      [ InitProcessGroup world_size rank;
        Construct (sync_test_helper_args compute_on_all_ranks world_size rank batch_size
                     batch_window_size n_classes (gen_test_tasks task_names) kwargs);
        Compute res1; Reset; Compute res2; DestroyProcessGroup ].
Proof.
  intros Hr0 Hr1 H. unfold sync_test_helper in H.
  apply bind_ok in H as (target & _ & H).
  apply bind_ok in H as ([model_outs g1] & _ & H).
  apply bind_ok in H as (model_out & _ & H).
  apply bind_ok in H as (st1 & Hst1 & H).
  apply bind_ok in H as (test_metrics & _ & H).
  apply bind_ok in H as (st2 & Hst2 & H).
  apply bind_ok in H as (target' & _ & H).
  apply bind_ok in H as (st3 & Hst3 & H).
  apply bind_ok in H as (st4 & Hst4 & H).
  injection H as <- <-.
  rewrite !decide_False in Hst1, Hst3 by done.
  injection Hst1 as <-. injection Hst3 as <-.
  apply compute_and_check_other in Hst2 as (res1 & Hlog2); [|done].
  apply compute_and_check_other in Hst4 as (res2 & Hlog4); [|done].
  exists res1, res2. rewrite Hlog4. simpl. by rewrite Hlog2.
Qed.

(** On rank 0 the sync test cannot pass without a reference class or
    without a task name: it ends with an exception. *)
Theorem sync_test_helper_needs_reference world_size test_clazz task_names metric_name
    compute_on_all_ranks batch_size batch_window_size n_classes kwargs g :
  (∃ e, sync_test_helper 0 world_size None task_names metric_name compute_on_all_ranks
          batch_size batch_window_size n_classes kwargs g = raise e) ∧
  (∃ e, sync_test_helper 0 world_size test_clazz [] metric_name compute_on_all_ranks
          batch_size batch_window_size n_classes kwargs g = raise e).
Proof.
  split.
  - destruct (sync_test_helper 0 world_size None task_names _ _ _ _ _ _ _)
      as [e|result] eqn:H; [by exists e|exfalso].
    unfold sync_test_helper in H.
    apply bind_ok in H as (target & _ & H).
    apply bind_ok in H as ([model_outs g1] & _ & H).
    apply bind_ok in H as (model_out & _ & H).
    apply bind_ok in H as (st1 & _ & H).
    apply bind_ok in H as (test_metrics & Htest & H).
    apply bind_ok in H as (st2 & Hst2 & _).
    apply compute_and_check_rank0 in Hst2 as (res & task0 & e & a & _ & He & _).
    simpl in Htest. injection Htest as <-. simpl in He.
    by rewrite lookup_empty in He.
  - destruct (sync_test_helper 0 world_size test_clazz [] _ _ _ _ _ _ _)
      as [e|result] eqn:H; [by exists e|exfalso].
    unfold sync_test_helper in H.
    apply bind_ok in H as (target & _ & H).
    apply bind_ok in H as ([model_outs g1] & _ & H).
    apply bind_ok in H as (model_out & _ & H).
    apply bind_ok in H as (st1 & _ & H).
    apply bind_ok in H as (test_metrics & _ & H).
    apply bind_ok in H as (st2 & Hst2 & _).
    by apply compute_and_check_rank0 in Hst2 as (res & task0 & e & a & Ht & _).
Qed.

(** *** The synthetic timestamps *)

Lemma fmap_const_seq {A} (x : A) (j n : nat) : (λ _, x) <$> seq j n = replicate n x.
Proof. revert j. induction n as [|n IH]; intros j; simpl; [done|]. by rewrite IH. Qed.

Lemma uniform_draws_length k : ∀ r, length (uniform_draws k r).1 = k.
Proof.
  induction k as [|k IH]; intros r; simpl; [done|].
  destruct (random_uniform _ _ r) as [x r1]. specialize (IH r1).
  destruct (uniform_draws k r1) as [xs r2]. simpl in *. by rewrite IH.
Qed.

Lemma running_sums_length lapses : ∀ t, length (running_sums t lapses) = S (length lapses).
Proof. induction lapses as [|x xs IH]; intros t; simpl; [done|]. by rewrite IH. Qed.

Lemma timestamps_loop (m : nat) :
  ∀ (pre : list float) (t : float) (r : PyRng),
    foldlM
      (λ '(timestamps, r) step,
         let '(time_lapse, r) := random_uniform 1.0%float 5.0%float r in
         let* previous := list_getitem timestamps (step - 1) in
         if decide (step < length timestamps)%nat
         then ok (<[step := (previous + time_lapse)%float]> timestamps, r)
         else raise IndexError)
      (pre ++ t :: replicate m 0.0%float, r) (seq (S (length pre)) m) =
    ok (pre ++ running_sums t (uniform_draws m r).1, (uniform_draws m r).2).
Proof.
  induction m as [|m IH]; intros pre t r; [done|].
  cbn [seq foldlM uniform_draws].
  destruct (random_uniform 1.0%float 5.0%float r) as [x r1] eqn:Hx.
  unfold bind at 1. cbn [replicate].
  replace (S (length pre) - 1)%nat with (length pre) by lia.
  unfold list_getitem at 1. rewrite list_lookup_middle by done. cbn [bind ok].
  rewrite decide_True by (rewrite length_app; simpl; lia).
  cbn [bind ok].
  replace (<[S (length pre):=(t + x)%float]> (pre ++ t :: 0.0%float :: replicate m 0.0%float))
    with ((pre ++ [t]) ++ (t + x)%float :: replicate m 0.0%float).
  - replace (S (S (length pre))) with (S (length (pre ++ [t])))
      by (rewrite length_app; simpl; lia).
    rewrite IH. destruct (uniform_draws m r1) as [xs r2]. simpl.
    by rewrite <- app_assoc.
  - rewrite <- app_assoc. simpl.
    replace (S (length pre)) with (length pre + 1)%nat by lia.
    by rewrite insert_app_r.
Qed.

(** [gen_test_timestamps] returns [nsteps] timestamps: the first is [0.0]
    and each next one is the previous one plus a fresh draw of
    [random.uniform(1.0, 5.0)]; it makes [nsteps - 1] draws and never
    raises. *)
Theorem gen_test_timestamps_running_sums (nsteps : Z) (r : PyRng) :
  gen_test_timestamps nsteps r =
    ok (if decide (0 < nsteps)
        then running_sums 0.0%float (uniform_draws (Z.to_nat (nsteps - 1)) r).1
        else [],
        (uniform_draws (Z.to_nat (nsteps - 1)) r).2) ∧
  length (if decide (0 < nsteps)
          then running_sums 0.0%float (uniform_draws (Z.to_nat (nsteps - 1)) r).1
          else []) = Z.to_nat nsteps.
Proof.
  unfold gen_test_timestamps, range. rewrite fmap_const_seq.
  destruct (decide (0 < nsteps)) as [Hpos|Hneg].
  - split.
    + replace (Z.to_nat nsteps) with (S (Z.to_nat (nsteps - 1))) by lia.
      apply (timestamps_loop (Z.to_nat (nsteps - 1)) [] 0.0%float r).
    + rewrite running_sums_length, uniform_draws_length. lia.
  - replace (Z.to_nat nsteps) with 0%nat by lia.
    by replace (Z.to_nat (nsteps - 1)) with 0%nat by lia.
Qed.

End Harness.

(** *** A concrete instance, used to evaluate the definitions

    Tensors are lists of integers, every rank holds the same tensors, and
    the metric is the weighted mean of the predictions (integer quotient of
    two sums), which does not change when the same batch is seen again. *)

Module Sample.

Definition zeros_like (t : list Z) : list Z := (λ _, 0) <$> t.
Definition iadd (s v : list Z) : list Z := zip_with Z.add s v.
Definition torch_cat (ts : list (list Z)) : list Z := concat ts.
Definition torch_ones (n : Z) : list Z := replicate (Z.to_nat n) 1.
Definition double (t : list Z) : list Z := t.
Definition scalar (f : float) : list Z := [0].
Definition dist_all_gather (i : nat) (k : string) (aggregated_list : list (list Z))
    (v : list Z) : list (list Z) :=
  (λ _, v) <$> aggregated_list.

Definition manual_seed (seed : Z) : Result Z := ok seed.
Definition torch_randint (low high size : Z) (g : Z) : Result (list Z * Z) :=
  ok (replicate (Z.to_nat size) (low + g `mod` (high - low)), g + 1).
Definition torch_rand (shape : list Z) (g : Z) : Result (list Z * Z) :=
  ok (replicate (Z.to_nat (hd 0 shape)) (g + 1), g + 1).

Definition total (t : list Z) : Z := foldr Z.add 0 t.

Definition mean_class : @TestMetricClass (list Z) :=
  {| _get_states := λ labels predictions weights tensor,
       <["weighted_sum" := zip_with Z.mul predictions weights]>
         (<["weight_sum" := weights]> ∅);
     _compute := λ states,
       [total (default [] (states !! "weighted_sum")) `div`
        total (default [] (states !! "weight_sum"))] |}.

(** A target object that keeps the two sums of the first task. *)
Record MeanTarget : Type := {
  mt_args : @RecMetricArgs unit;
  mt_weighted_sum : Z;
  mt_weight_sum : Z;
}.

Definition target_clazz (args : @RecMetricArgs unit) : Result MeanTarget :=
  ok {| mt_args := args; mt_weighted_sum := 0; mt_weight_sum := 0 |}.

Definition get_required_inputs (t : MeanTarget) : list string := [].

Definition first_task (t : MeanTarget) : string :=
  default "" (name <$> head (arg_tasks (mt_args t))).

Definition target_update (t : MeanTarget)
    (predictions labels weights required_inputs : gmap string (list Z))
    : Result MeanTarget :=
  let* p := getitem predictions (first_task t) in
  let* w := getitem weights (first_task t) in
  ok {| mt_args := mt_args t;
        mt_weighted_sum := mt_weighted_sum t + total (zip_with Z.mul p w);
        mt_weight_sum := mt_weight_sum t + total w |}.

Definition target_compute (t : MeanTarget) : Result (gmap string (list Z) * MeanTarget) :=
  ok (<["mean-" +:+ first_task t +:+ "|window_mean" :=
          [mt_weighted_sum t `div` mt_weight_sum t]]> ∅, t).

Definition target_reset (t : MeanTarget) : Result MeanTarget :=
  ok {| mt_args := mt_args t; mt_weighted_sum := 0; mt_weight_sum := 0 |}.

Definition parse_task_model_outputs (tasks : list RecTaskInfo)
    (model_out : gmap string (list Z)) (required_inputs_list : list string)
    : Result (gmap string (list Z) * gmap string (list Z) * gmap string (list Z) *
              gmap string (list Z)) :=
  foldlM
    (λ '(labels, predictions, weights, required_inputs) task,
       let* l := getitem model_out (label_name task) in
       let* p := getitem model_out (prediction_name task) in
       let* w := getitem model_out (weight_name task) in
       ok (<[name task := l]> labels, <[name task := p]> predictions,
           <[name task := w]> weights, required_inputs))
    (∅, ∅, ∅, ∅) tasks.

Definition allclose (a b : list Z) : bool := bool_decide (a = b).

Definition sync_run (rank : Z) : Result (list (@Event (list Z) unit) * Z) :=
  sync_test_helper zeros_like iadd torch_cat torch_ones double scalar dist_all_gather
    manual_seed torch_randint torch_rand
    target_clazz get_required_inputs target_update target_compute target_reset
    parse_task_model_outputs allclose
    rank 2 (Some mean_class) ["t"] "mean" false 3 BATCH_WINDOW_SIZE None ∅ 7.

Definition sync_log (rank : Z) : list (@Event (list Z) unit) :=
  match sync_run rank with
  | inr (log, _) => log
  | inl _ => []
  end.

(** A reference metric with the window flag disabled. *)
Definition no_window : @TestMetric (list Z) :=
  {| clazz := mean_class;
     world_size := 2;
     _rec_tasks := gen_test_tasks ["t"];
     _compute_lifetime_metric := true;
     _compute_window_metric := false;
     _local_compute_lifetime_metric := true;
     _local_compute_window_metric := true |}.

End Sample.

(** C1 as stated fails when the window flag is disabled: the guard holds for
    no step although [nsteps - batch_window_size <= i]. *)
Lemma window_guard_flag_counterexample :
  ¬ (∀ (tm : @TestMetric (list Z)) (nsteps batch_window_size : Z) (i : nat),
       0 ≤ Z.of_nat i < nsteps →
       (window_guard tm nsteps batch_window_size i = true ↔
        nsteps - batch_window_size ≤ Z.of_nat i)).
Proof.
  intros H. specialize (H Sample.no_window 1 1 0%nat).
  assert (0 ≤ Z.of_nat 0 < 1) as Hi by lia.
  apply H in Hi as [_ Hi]. by specialize (Hi ltac:(lia)).
Qed.

Lemma sync_test_helper_updates_witness :
  Sample.sync_run 0 = ok (Sample.sync_log 0, 46) ∧
  Sample.sync_run 1 = ok (Sample.sync_log 1, 46) ∧
  (∃ l p w r res1 res2 expected actual1 actual2 args,
     Sample.sync_log 0 =
       [ InitProcessGroup 2 0; Construct args;
         Update p l w r; Update p l w r; Update p l w r;
         Compute res1; AssertAllclose expected actual1;
         Reset;
         Update p l w r;
         Compute res2; AssertAllclose expected actual2;
         DestroyProcessGroup ]) ∧
  (∃ l p w r res1 res2 args,
     Sample.sync_log 1 =
       [ InitProcessGroup 2 1; Construct args;
         Update p l w r;
         Compute res1;
         Reset;
         Update p l w r; Update p l w r; Update p l w r;
         Compute res2;
         DestroyProcessGroup ]).
Proof.
  assert (Sample.sync_run 0 = ok (Sample.sync_log 0, 46)) as H0
    by (vm_compute; reflexivity).
  assert (Sample.sync_run 1 = ok (Sample.sync_log 1, 46)) as H1
    by (vm_compute; reflexivity).
  split; [exact H0|]. split; [exact H1|]. split.
  - destruct (proj1 (sync_test_helper_updates _ _ _ _ _ _ _ _ _ _ _ _ _ _ _ _ _ _ _ _
                       _ _ _ _ _ _ _ _ _) H0)
      as (l & p & w & r & res1 & res2 & expected & actual1 & actual2 & _ & _ & _ & _ & _
          & Hlog & _).
    by eexists l, p, w, r, res1, res2, expected, actual1, actual2, _.
  - destruct (proj2 (sync_test_helper_updates _ _ _ _ _ _ _ _ _ _ _ _ _ _ _ _ _ _ _ _
                       _ _ _ _ _ _ _ _ _) H1)
      as (l & p & w & r & res1 & res2 & Hlog).
    by eexists l, p, w, r, res1, res2, _.
Defined.

(** *** The definitions on concrete inputs *)

Definition sample_batch (seed : Z) : gmap string (list Z) :=
  match gen_test_batch Sample.torch_ones Sample.double Sample.manual_seed
          Sample.torch_randint Sample.torch_rand
          (sync_batch_args 2 None
             {| name := "t"; label_name := "t-label"; prediction_name := "t-prediction";
                weight_name := "t-weight"; tensor_name := Some "t-tensor" |})
          (Some seed) 0 with
  | inr (batch, _) => batch
  | inl _ => ∅
  end.

Example sample_batch_values :
  sample_batch 5 !! "t-label" = Some [1; 1] ∧
  sample_batch 5 !! "t-prediction" = Some [7; 7] ∧
  sample_batch 5 !! "t-weight" = Some [8; 8] ∧
  sample_batch 5 !! "t-tensor" = Some [9; 9].
Proof. by vm_compute. Qed.

Example aggregate_example :
  _aggregate Sample.zeros_like Sample.iadd
    (<["a" := [1; 2]]> (<["b" := [5]]> ∅)) (<["a" := [10; 20]]> (<["c" := [7]]> ∅)) =
  <["a" := [11; 22]]> (<["b" := [5]]> (<["c" := [7]]> ∅)).
Proof. by vm_compute. Qed.

Example window_steps_example :
  filter (λ i, window_guard (TestMetric_init Sample.mean_class 2 (gen_test_tasks ["t"]))
                 NSTEPS BATCH_WINDOW_SIZE i = true) (range NSTEPS) =
  [5; 6; 7; 8; 9]%nat.
Proof. by vm_compute. Qed.

(** Three steps with window size 2: the lifetime value covers the three
    batches, the window value the last two. *)
Example compute_example :
  compute Sample.zeros_like Sample.iadd Sample.torch_cat Sample.scalar
    Sample.dist_all_gather
    (TestMetric_init Sample.mean_class 2 (gen_test_tasks ["t"]))
    [sample_batch 1; sample_batch 10; sample_batch 100] 3 2 None =
  ok (<["t" := [88]]> ∅, <["t" := [91]]> ∅, <["t" := [88]]> ∅, <["t" := [91]]> ∅).
Proof. by vm_compute. Qed.

(** With the window flag disabled the window value is [torch.tensor(0.0)]
    although every step satisfies [nsteps - batch_window_size <= i]. *)
Example compute_no_window_example :
  compute Sample.zeros_like Sample.iadd Sample.torch_cat Sample.scalar
    Sample.dist_all_gather Sample.no_window
    [sample_batch 1; sample_batch 10; sample_batch 100] 3 3 None =
  ok (<["t" := [88]]> ∅, <["t" := [0]]> ∅, <["t" := [88]]> ∅, <["t" := [88]]> ∅) ∧
  (let* acc :=
     compute_states Sample.zeros_like Sample.iadd Sample.torch_cat Sample.dist_all_gather
       Sample.no_window [sample_batch 1; sample_batch 10; sample_batch 100] 3 3 in
   ok (window_states acc)) =
  ok (<["t" := ∅]> ∅).
Proof. by vm_compute. Qed.

(** *** Further evaluations on the concrete instance *)

Module SampleMore.

Definition torch_zeros (n : Z) : list Z := replicate (Z.to_nat n) 0.

(** A draw that returns the midpoint of the interval. *)
Definition random_uniform (a b : float) (r : Z) : float * Z :=
  (((a + b) / 2)%float, r + 1).

Definition task_t : RecTaskInfo :=
  {| name := "t"; label_name := "t-label"; prediction_name := "t-prediction";
     weight_name := "t-weight"; tensor_name := Some "t-tensor" |}.

Definition mean_metric (world_size : Z) : @TestMetric (list Z) :=
  TestMetric_init Sample.mean_class world_size (gen_test_tasks ["t"]).

Definition three_outs : list (gmap string (list Z)) :=
  [sample_batch 1; sample_batch 10; sample_batch 100].

Definition run_compute (tm : @TestMetric (list Z)) (model_outs : list (gmap string (list Z)))
    (nsteps batch_window_size : Z) : Result (@TestRecMetricOutput (list Z)) :=
  compute Sample.zeros_like Sample.iadd Sample.torch_cat Sample.scalar
    Sample.dist_all_gather tm model_outs nsteps batch_window_size None.

Definition run_gen_model_outs (zero_weights zero_labels : bool)
    : Result (list (gmap string (list Z)) * Z) :=
  gen_model_outs Sample.torch_ones Sample.double Sample.manual_seed Sample.torch_randint
    Sample.torch_rand torch_zeros (gen_test_tasks ["t"]) 2 2 None
    zero_weights zero_labels 0.

Definition generated_outs (zero_weights zero_labels : bool) : list (gmap string (list Z)) :=
  match run_gen_model_outs zero_weights zero_labels with
  | inr (model_outs, _) => model_outs
  | inl _ => []
  end.

(** Target metrics that agree with the reference values of [three_outs]. *)
Definition target_values : gmap string (list Z) :=
  <["mean-t|lifetime_mean" := [88]]>
    (<["mean-t|local_lifetime_mean" := [88]]>
       (<["mean-t|window_mean" := [91]]>
          (<["mean-t|local_window_mean" := [91]]> ∅))).

Definition reference_values : @TestRecMetricOutput (list Z) :=
  (<["t" := [88]]> ∅, <["t" := [91]]> ∅, <["t" := [88]]> ∅, <["t" := [91]]> ∅).

End SampleMore.

Example gen_test_timestamps_example :
  gen_test_timestamps SampleMore.random_uniform 4 0 =
  ok ([0.0; 3.0; 6.0; 9.0]%float, 3).
Proof. by vm_compute. Qed.

Example check_task_metrics_example :
  check_task_metrics Sample.allclose 0 (OtherMetric "MeanMetric") "mean" "mean" ["t"]
    SampleMore.target_values SampleMore.reference_values = ok () ∧
  check_task_metrics Sample.allclose 0 (OtherMetric "MeanMetric") "mean" "mean" ["t"]
    (delete "mean-t|lifetime_mean" SampleMore.target_values)
    SampleMore.reference_values = raise (KeyError "mean-t|lifetime_mean") ∧
  check_task_metrics Sample.allclose 0 AUCMetric "mean" "mean" ["t"]
    (delete "mean-t|lifetime_mean" SampleMore.target_values)
    SampleMore.reference_values = ok ().
Proof. by vm_compute. Qed.

Lemma gen_test_tasks_keys_distinct_witness :
  NoDup ["a"; "b"] ∧ NoDup (gen_test_tasks ["a"; "b"] ≫= task_keys).
Proof.
  assert (NoDup ["a"; "b"]) as Hnd by compute_done.
  split; [exact Hnd|].
  exact (proj2 (proj2 (gen_test_tasks_keys_distinct ["a"; "b"])) Hnd).
Defined.

Lemma gen_test_batch_keys_witness :
  gen_test_batch Sample.torch_ones Sample.double Sample.manual_seed Sample.torch_randint
    Sample.torch_rand (sync_batch_args 2 None SampleMore.task_t) (Some 5) 0 =
    ok (sample_batch 5, 9) ∧
  dom (sample_batch 5) =
  list_to_set (["t-label"; "t-prediction"; "t-weight"; "t-tensor"] ++ []).
Proof.
  assert (gen_test_batch Sample.torch_ones Sample.double Sample.manual_seed
            Sample.torch_randint Sample.torch_rand
            (sync_batch_args 2 None SampleMore.task_t) (Some 5) 0 =
          ok (sample_batch 5, 9)) as H by (vm_compute; reflexivity).
  split; [exact H|].
  exact (gen_test_batch_keys _ _ _ _ _ _ _ _ _ _ H).
Defined.

Ltac solve_complete :=
  unfold complete;
  repeat (apply Forall_cons; split); try apply Forall_nil;
  by (vm_compute; eexists).

Lemma gen_test_batch_supplied_values_witness :
  ∃ batch,
    gen_test_batch Sample.torch_ones Sample.double Sample.manual_seed Sample.torch_randint
      Sample.torch_rand
      (value_batch_args 2 None (Some [0; 0]) (Some [5; 5]) SampleMore.task_t) None 0 =
      ok (batch, 2) ∧
    NoDup (["t-label"; "t-prediction"; "t-weight"; "t-tensor"] ++ []) ∧
    batch !! "t-label" = Some [5; 5] ∧ batch !! "t-weight" = Some [0; 0].
Proof.
  eexists.
  assert (NoDup (["t-label"; "t-prediction"; "t-weight"; "t-tensor"] ++ [])) as Hnd
    by compute_done.
  split; [by vm_compute|]. split; [exact Hnd|].
  edestruct (gen_test_batch_supplied_values Sample.torch_ones Sample.double
               Sample.manual_seed Sample.torch_randint Sample.torch_rand
               (value_batch_args 2 None (Some [0; 0]) (Some [5; 5]) SampleMore.task_t)
               None 0) as (Hl & _ & Hw & _); [by vm_compute|exact Hnd|].
  split; [by apply Hl|by apply Hw].
Defined.

Lemma compute_returns_iff_witness :
  ∃ result, SampleMore.run_compute (SampleMore.mean_metric 2) SampleMore.three_outs 3 2 =
            ok result.
Proof.
  unfold SampleMore.run_compute. apply compute_returns_iff.
  intros i Hi.
  destruct i as [|[|[|i]]]; [| | |lia]; eexists; (split; [reflexivity|solve_complete]).
Defined.

Lemma compute_too_few_outputs_witness :
  Forall (complete (gen_test_tasks ["t"])) SampleMore.three_outs ∧
  Z.of_nat (length SampleMore.three_outs) < 4 ∧
  SampleMore.run_compute (SampleMore.mean_metric 2) SampleMore.three_outs 4 2 =
  raise IndexError.
Proof.
  assert (Forall (complete (gen_test_tasks ["t"])) SampleMore.three_outs) as Hall.
  { repeat (apply Forall_cons; split); try apply Forall_nil; solve_complete. }
  assert (Z.of_nat (length SampleMore.three_outs) < 4) as Hlen by (simpl; lia).
  split; [exact Hall|]. split; [exact Hlen|].
  unfold SampleMore.run_compute. by apply compute_too_few_outputs.
Defined.

Lemma compute_missing_label_witness :
  (∅ : gmap string (list Z)) !! "t-label" = None ∧
  SampleMore.run_compute (SampleMore.mean_metric 2) [∅] 1 1 = raise (KeyError "t-label").
Proof.
  split; [reflexivity|]. unfold SampleMore.run_compute.
  apply compute_missing_label with (task_info := SampleMore.task_t) (tasks := []);
    [reflexivity|lia|reflexivity].
Defined.

Lemma compute_no_steps_witness :
  0 ≤ 0 ∧
  SampleMore.run_compute (SampleMore.mean_metric 2) [] 0 5 =
  ok (<["t" := [0]]> ∅, <["t" := [0]]> ∅, <["t" := [0]]> ∅, <["t" := [0]]> ∅).
Proof.
  split; [lia|]. unfold SampleMore.run_compute.
  rewrite compute_no_steps by lia. by vm_compute.
Defined.

Lemma compute_result_keys_witness :
  SampleMore.run_compute (SampleMore.mean_metric 2) SampleMore.three_outs 3 2 =
    ok SampleMore.reference_values ∧
  dom (SampleMore.reference_values.1.1.1) = list_to_set ["t"].
Proof.
  assert (SampleMore.run_compute (SampleMore.mean_metric 2) SampleMore.three_outs 3 2 =
          ok SampleMore.reference_values) as H by (by vm_compute).
  split; [exact H|].
  unfold SampleMore.run_compute, SampleMore.reference_values in H.
  by apply compute_result_keys in H as [H1 _].
Defined.

Lemma compute_window_covers_run_witness :
  3 ≤ 5 ∧
  ∃ lifetime local_lifetime,
    SampleMore.run_compute (SampleMore.mean_metric 2) SampleMore.three_outs 3 5 =
    ok (lifetime, lifetime, local_lifetime, local_lifetime).
Proof.
  split; [lia|].
  destruct (SampleMore.run_compute (SampleMore.mean_metric 2) SampleMore.three_outs 3 5)
    as [e|[[[lifetime window] local_lifetime] local_window]] eqn:H; [by vm_compute in H|].
  unfold SampleMore.run_compute in H.
  apply compute_window_covers_run in H as [Hw Hl]; [|lia].
  rewrite (Hw eq_refl), (Hl eq_refl). by exists lifetime, local_lifetime.
Defined.

Lemma compute_empty_window_witness :
  0 ≤ 0 ∧
  ∃ lifetime local_lifetime,
    SampleMore.run_compute (SampleMore.mean_metric 2) SampleMore.three_outs 3 0 =
    ok (lifetime, <["t" := [0]]> ∅, local_lifetime, <["t" := [0]]> ∅).
Proof.
  split; [lia|].
  destruct (SampleMore.run_compute (SampleMore.mean_metric 2) SampleMore.three_outs 3 0)
    as [e|[[[lifetime window] local_lifetime] local_window]] eqn:H; [by vm_compute in H|].
  unfold SampleMore.run_compute in H.
  apply compute_empty_window in H as [-> ->]; [|lia].
  by exists lifetime, local_lifetime.
Defined.

Lemma compute_single_rank_witness :
  (∀ v, Sample.torch_cat [v] = v) ∧
  (∀ (i : nat) (k : string) v,
     Sample.dist_all_gather i k [Sample.zeros_like v] v = [v]) ∧
  ∃ lifetime window,
    SampleMore.run_compute (SampleMore.mean_metric 1) SampleMore.three_outs 3 2 =
    ok (lifetime, window, lifetime, window).
Proof.
  assert (∀ v, Sample.torch_cat [v] = v) as Hcat.
  { intros v. unfold Sample.torch_cat. simpl. apply app_nil_r. }
  assert (∀ (i : nat) (k : string) v,
            Sample.dist_all_gather i k [Sample.zeros_like v] v = [v]) as Hgather.
  { reflexivity. }
  split; [exact Hcat|]. split; [exact Hgather|].
  destruct (SampleMore.run_compute (SampleMore.mean_metric 1) SampleMore.three_outs 3 2)
    as [e|[[[lifetime window] local_lifetime] local_window]] eqn:H; [by vm_compute in H|].
  unfold SampleMore.run_compute in H.
  apply compute_single_rank in H as [Hl Hw]; [|done..].
  rewrite <- (Hl eq_refl), <- (Hw eq_refl). by exists lifetime, window.
Defined.

Lemma gen_model_outs_complete_witness :
  SampleMore.run_gen_model_outs false false =
    ok (SampleMore.generated_outs false false, 8) ∧
  length (SampleMore.generated_outs false false) = 2%nat ∧
  ∃ test_metrics,
    get_test_rec_metric_value Sample.zeros_like Sample.iadd Sample.torch_cat
      Sample.scalar Sample.dist_all_gather (Some Sample.mean_class) 2 2 5
      (SampleMore.generated_outs false false) (gen_test_tasks ["t"]) None =
    ok test_metrics.
Proof.
  assert (SampleMore.run_gen_model_outs false false =
          ok (SampleMore.generated_outs false false, 8)) as H by (by vm_compute).
  split; [exact H|].
  unfold SampleMore.run_gen_model_outs in H.
  eapply gen_model_outs_complete with
    (zeros_like := Sample.zeros_like) (iadd := Sample.iadd)
    (torch_cat := Sample.torch_cat) (scalar := Sample.scalar)
    (dist_all_gather := Sample.dist_all_gather) in H.
  destruct H as (Hlen & _ & Hok).
  split; [exact Hlen|]. apply Hok.
Defined.

Lemma gen_model_outs_zero_values_witness :
  SampleMore.run_gen_model_outs true true =
    ok (SampleMore.generated_outs true true, 4) ∧
  Forall (λ model_out, model_out !! "t-weight" = Some [0; 0] ∧
                       model_out !! "t-label" = Some [0; 0])
         (SampleMore.generated_outs true true).
Proof.
  assert (SampleMore.run_gen_model_outs true true =
          ok (SampleMore.generated_outs true true, 4)) as H by (by vm_compute).
  split; [exact H|].
  unfold SampleMore.run_gen_model_outs in H.
  apply gen_model_outs_zero_values in H.
  eapply Forall_impl; [exact H|]. intros model_out Hout.
  destruct (Hout "t") as [Hw Hl]; [apply list_elem_of_here|].
  split; [by apply Hw|by apply Hl].
Defined.

Lemma check_task_metrics_passes_iff_witness :
  check_task_metrics Sample.allclose 1 (OtherMetric "MeanMetric") "mean" "mean" ["t"]
    ∅ SampleMore.reference_values = ok () ∧
  check_task_metrics Sample.allclose 0 (OtherMetric "MeanMetric") "mean" "mean" ["t"]
    SampleMore.target_values SampleMore.reference_values = ok () ∧
  close_values Sample.allclose SampleMore.target_values "mean-t|window_mean"
    (SampleMore.reference_values.1.1.2) "t".
Proof.
  split; [|split].
  - by apply (proj1 (check_task_metrics_passes_iff Sample.allclose 1
                       (OtherMetric "MeanMetric") "mean" "mean" ["t"] ∅
                       SampleMore.reference_values)).
  - by vm_compute.
  - pose proof (proj1 (proj2 (check_task_metrics_passes_iff Sample.allclose 0
                                (OtherMetric "MeanMetric") "mean" "mean" ["t"]
                                SampleMore.target_values SampleMore.reference_values)
                         eq_refl)) as H.
    specialize (H ltac:(by vm_compute)).
    apply Forall_cons in H as [(_ & Hw & _) _]. exact Hw.
Defined.

Lemma sync_test_helper_idle_rank_witness :
  (2 : Z) ≠ 0 ∧ (2 : Z) ≠ 1 ∧
  Sample.sync_run 2 = ok (Sample.sync_log 2, 46) ∧
  ∃ args res1 res2,
    Sample.sync_log 2 =
      [InitProcessGroup 2 2; Construct args; Compute res1; Reset; Compute res2;
       DestroyProcessGroup].
Proof.
  assert (Sample.sync_run 2 = ok (Sample.sync_log 2, 46)) as H by (by vm_compute).
  split; [done|]. split; [done|]. split; [exact H|].
  unfold Sample.sync_run in H.
  apply sync_test_helper_idle_rank in H as (res1 & res2 & Hlog); [|done..].
  by eexists _, res1, res2.
Defined.

End MetricsTestUtils.
